(** * U2F-Emulated: the raw AUTHENTICATE handler

    A shallow embedding of [src/u2f-raw/authenticate.c] and of the
    constants of [src/u2f-hid/message.h], followed by the properties
    of the handler that the specification states.

    Conventions.
    - A byte ([uint8_t]) is a [Z]; conversions to [uint8_t] are written
      out with [u8].  A [uint32_t] is a [Z] as well, and the shifts and
      masks of the source are [Z.shiftr] and [Z.land].
    - A [size_t] is a [Z]; the one subtraction the source performs on
      sizes wraps modulo [2^64] ([size_sub]).
    - A heap buffer is a [list Z].  A read that leaves the buffer, or a
      read of bytes nothing has written, has no defined result in C:
      the model stops with a [Fault].
    - A [struct message *] that the source mutates in place is threaded
      through the calls; a possibly-[NULL] return is an [option].
    - Logging ([fprintf], [warnx], [dump_bytes]) writes to [stderr] only
      and is left out, except that the reads [dump_bytes] performs on
      the key handle are kept. *)

From Stdlib Require Import ZArith List Bool Lia.
Import ListNotations.
Open Scope Z_scope.

(** ** Machine integers *)

(** Conversion to [uint8_t]. *)
Definition u8 (z : Z) : Z := Z.land z 255.

Definition SIZE_MODULUS : Z := 2 ^ 64.

(** [a - b] on [size_t]. *)
Definition size_sub (a b : Z) : Z := (a - b) mod SIZE_MODULUS.

(** ** Undefined reads *)

Inductive fault : Type :=
| OutOfBounds     (* a read past the end of a buffer *)
| Indeterminate.  (* a read of bytes that were never written *)

Inductive result (A : Type) : Type :=
| Done (a : A)
| Fault (f : fault).

Arguments Done {A} a.
Arguments Fault {A} f.

Definition bind {A B : Type} (r : result A) (k : A -> result B) : result B :=
  match r with
  | Done a => k a
  | Fault f => Fault f
  end.

Notation "x <- r ;; k" := (bind r (fun x => k))
  (at level 61, r at next level, right associativity).
Notation "' p <- r ;; k" := (bind r (fun x => match x with p => k end))
  (at level 61, p pattern, r at next level, right associativity).

(** [n] bytes of [buf] starting at [off]. *)
Definition read_bytes (buf : list Z) (off n : Z) : result (list Z) :=
  if (0 <=? off) && (0 <=? n) && (off + n <=? Z.of_nat (length buf))
  then Done (firstn (Z.to_nat n) (skipn (Z.to_nat off) buf))
  else Fault OutOfBounds.

(** [memcmp] over the first [n] bytes of two buffers that hold at least
    [n] bytes each: zero when they agree, the difference of the first
    pair of bytes that differ otherwise. *)
Fixpoint memcmp (a b : list Z) (n : nat) : Z :=
  match n, a, b with
  | S n', x :: a', y :: b' => if x =? y then memcmp a' b' n' else x - y
  | _, _, _ => 0
  end.

(** ** Constants *)

(** [src/u2f-hid/message.h]. *)
Definition U2FHID_INIT_BCNT : Z := 8.
Definition PROTOCOL_VERSION : Z := 2.
Definition MAJ_DEV_VERSION : Z := 0.
Definition MIN_DEV_VERSION : Z := 1.
Definition BUILD_DEV_VERSION : Z := 0.
Definition CAP_FLAGS : Z := 0.
Definition CAPABILITY_WINK : Z := 0.

(** Modelled from the spec: the header [frame.h] is missing; the APDU
    header is seven bytes, [CLA INS P1 P2 LC:3]. *)
Definition U2F_APDU_HEADER_SIZE : Z := 7.

(** Modelled from the spec: the headers [raw_message.h] and [register.h]
    are missing; both parameters are 32-byte SHA-256 values. *)
Definition U2F_APP_PARAM_SIZE : Z := 32.
Definition U2F_CHA_PARAM_SIZE : Z := 32.

(** Modelled from the spec: the status words of the table in section 4.4
    ([raw_message.h] is missing). *)
Definition SW_NO_ERROR : Z := 0x9000.
Definition SW_CONDITIONS_NOT_SATISFIED : Z := 0x6985.
Definition SW_WRONG_DATA : Z := 0x6A80.

(** Modelled from the spec: the sub-modes selected by [P1]
    ([authenticate.h] is missing). *)
Definition U2F_AUTH_CHECK : Z := 0x07.
Definition U2F_AUTH_ENFORCE : Z := 0x03.
Definition U2F_AUTH_NO_ENFORCE : Z := 0x08.

(** Modelled from the spec: the HID command [MSG]
    ([commands.h] is missing). *)
Definition CMD_MSG : Z := 0x83.

(** ** Messages *)

(** [struct message]: the channel and command of the init packet, and
    the data of the init packet and of the continuation packets laid
    end to end, [BCNT] bytes in all. *)
Record message : Type := mkMessage {
  cid : Z;
  cmd : Z;
  payload : list Z
}.

(** Modelled from the spec: [message_new_blank] is declared in
    [message.h] and defined in the missing [message.c]; it allocates a
    message of the given channel and command with no data. *)
Definition message_new_blank (c : Z) (k : Z) : message :=
  mkMessage c k [].

(** Modelled from the spec: [message_add_data] is declared in
    [message.h] and defined in the missing [message.c]; it appends
    [data] to the message. *)
Definition message_add_data (m : message) (data : list Z) : message :=
  mkMessage (cid m) (cmd m) (payload m ++ data).

(** Modelled from the spec: [message_read] is declared in [message.h]
    and defined in the missing [message.c]; it copies at most [size]
    bytes of the message from [offset] on and returns how many it
    copied.  The result here is the bytes copied. *)
Definition message_read (m : message) (offset size : Z) : list Z :=
  firstn (Z.to_nat size) (skipn (Z.to_nat offset) (payload m)).

(** Modelled from the spec: [struct frame_header] of the missing
    [frame.h], laid over the data of the init packet; [p1] is its third
    byte.  The bytes of the packet beyond [BCNT] are not part of the
    message. *)
Definition frame_header_p1 (data : list Z) : result Z :=
  match nth_error data 2 with
  | Some b => Done b
  | None => Fault Indeterminate
  end.

(** Modelled from the spec: [struct authentification_params] of the
    missing [authenticate.h], the fixed part of the request after the
    APDU header. *)
Record authentification_params : Type := mkParams {
  challenge_param : list Z;
  application_param : list Z;
  key_handle_size : Z
}.

Definition SIZEOF_PARAMS : Z :=
  U2F_CHA_PARAM_SIZE + U2F_APP_PARAM_SIZE + 1.

(** [message_read(request, (uint8_t * )&params, U2F_APDU_HEADER_SIZE,
    sizeof(struct authentification_params))]: the struct is filled
    only as far as the request reaches. *)
Definition read_params (request : message) : result authentification_params :=
  let raw := message_read request U2F_APDU_HEADER_SIZE SIZEOF_PARAMS in
  if Z.of_nat (length raw) <? SIZEOF_PARAMS then Fault Indeterminate
  else Done (mkParams
               (firstn (Z.to_nat U2F_CHA_PARAM_SIZE) raw)
               (firstn (Z.to_nat U2F_APP_PARAM_SIZE)
                  (skipn (Z.to_nat U2F_CHA_PARAM_SIZE) raw))
               (nth (Z.to_nat (U2F_CHA_PARAM_SIZE + U2F_APP_PARAM_SIZE)) raw 0)).

(** ** The handler *)

Section Authenticate.

(** The cryptographic primitives of the missing [crypto.h], taken as
    pure functions. *)
Variable EC_KEY : Type.
Variable crypto_aes_decrypt : list Z -> list Z.
Variable crypto_hash : list Z -> list Z.
Variable crypto_ec_bytes_to_key : list Z -> EC_KEY.
Variable crypto_ec_sign_with_key : EC_KEY -> list Z -> list Z.

(** [presence] is a [uint8_t]: what the caller passes is converted. *)
Definition authenticate_response_user_pre (response : message)
    (presence : Z) : message :=
  message_add_data response [u8 presence].

(** The four bytes [counter_buffer] is filled with. *)
Definition counter_buffer (counter : Z) : list Z :=
  [ Z.land counter 0xFF;
    Z.land (Z.shiftr counter 8) 0xFF;
    Z.land (Z.shiftr counter 16) 0xFF;
    Z.land (Z.shiftr counter 24) 0xFF ].

Definition authenticate_response_counter (response : message)
    (counter : Z) : message :=
  message_add_data response (counter_buffer counter).

(** The buffer [authenticate_response_signature] fills and hashes;
    [presence] is a [uint8_t] there as well. *)
Definition buffer_to_sign (params : authentification_params)
    (presence : Z) (counter : Z) : list Z :=
  application_param params
  ++ [u8 presence]
  ++ counter_buffer counter
  ++ challenge_param params.

Definition authenticate_response_signature (response : message)
    (key : EC_KEY) (params : authentification_params)
    (presence : Z) (counter : Z) : message :=
  let digest := crypto_hash (buffer_to_sign params presence counter) in
  let signature_buffer := crypto_ec_sign_with_key key digest in
  message_add_data response signature_buffer.

Definition authenticate_response_sw (response : message)
    (status : Z) : message :=
  message_add_data response [u8 (Z.shiftr status 8); Z.land status 0xFF].

(** Returns the ciphered key handle and, through [size], its length. *)
Definition authenticate_get_key_handle_cipher (request : message)
    (params : authentification_params) : result (list Z * Z) :=
  let offset := U2F_APDU_HEADER_SIZE
                + U2F_APP_PARAM_SIZE
                + U2F_CHA_PARAM_SIZE
                + 1 in
  let size := key_handle_size params in
  let key_handle_cipher := message_read request offset size in
  if Z.of_nat (length key_handle_cipher) <? size then Fault Indeterminate
  else Done (key_handle_cipher, size).

(** Returns the plain key handle and, through [size], its length. *)
Definition authenticate_decrypt_key_handle_cipher
    (key_handle_cipher : list Z) (key_handle_cipher_size : Z)
    : result (list Z * Z) :=
  cipher <- read_bytes key_handle_cipher 0 key_handle_cipher_size ;;
  let key_handle := crypto_aes_decrypt cipher in
  Done (key_handle, Z.of_nat (length key_handle)).

Definition authenticate_get_pubkey_from_key_handle
    (key_handle : list Z) (key_handle_size : Z) : result EC_KEY :=
  let privkey_size := size_sub key_handle_size U2F_APP_PARAM_SIZE in
  privkey <- read_bytes key_handle 0 privkey_size ;;
  Done (crypto_ec_bytes_to_key privkey).

Definition raw_authenticate_check (request : message)
    : result (option message) :=
  params <- read_params request ;;
  let response := message_new_blank (cid request) CMD_MSG in
  '(key_handle_cipher, key_handle_cipher_size) <-
    authenticate_get_key_handle_cipher request params ;;
  '(key_handle, key_handle_size) <-
    authenticate_decrypt_key_handle_cipher
      key_handle_cipher key_handle_cipher_size ;;
  let privkey_size := size_sub key_handle_size U2F_APP_PARAM_SIZE in
  bound <- read_bytes key_handle privkey_size U2F_APP_PARAM_SIZE ;;
  let response :=
    if negb (memcmp bound (application_param params)
               (Z.to_nat U2F_APP_PARAM_SIZE) =? 0)
    then authenticate_response_sw response SW_WRONG_DATA
    else authenticate_response_sw response SW_CONDITIONS_NOT_SATISFIED in
  Done (Some response).

Definition raw_authenticate_enforce (request : message)
    : result (option message) :=
  params <- read_params request ;;
  let response := message_new_blank (cid request) CMD_MSG in
  '(key_handle_cipher, _) <-
    authenticate_get_key_handle_cipher request params ;;
  '(key_handle, key_handle_size) <-
    authenticate_decrypt_key_handle_cipher
      key_handle_cipher (key_handle_size params) ;;
  key <- authenticate_get_pubkey_from_key_handle
           key_handle key_handle_size ;;
  let response := authenticate_response_user_pre response 1 in
  let response := authenticate_response_counter response 1 in
  let response :=
    authenticate_response_signature response key params 1 1 in
  let response := authenticate_response_sw response SW_NO_ERROR in
  Done (Some response).

Definition raw_authenticate_no_enforce (request : message)
    : result (option message) :=
  Done None.

Definition raw_authenticate_handler (request : message)
    : result (option message) :=
  p1 <- frame_header_p1 (payload request) ;;
  if p1 =? U2F_AUTH_CHECK then raw_authenticate_check request
  else if p1 =? U2F_AUTH_ENFORCE then raw_authenticate_enforce request
  else if p1 =? U2F_AUTH_NO_ENFORCE then raw_authenticate_no_enforce request
  else Done None.

End Authenticate.

(** ** Reading a request and a response

    The fields of an AUTHENTICATE request and of its response by their
    position on the wire, independently of the handler: after the APDU
    header come [challenge_param:32], [application_param:32],
    [key_handle_size:1] and the ciphered key handle. *)

Definition request_challenge_param (request : message) : list Z :=
  firstn 32 (skipn 7 (payload request)).

Definition request_application_param (request : message) : list Z :=
  firstn 32 (skipn 39 (payload request)).

Definition request_key_handle_size (request : message) : Z :=
  nth 71 (payload request) 0.

Definition request_key_handle_cipher (request : message) : list Z :=
  firstn (Z.to_nat (request_key_handle_size request))
    (skipn 72 (payload request)).

(** The request holds its fixed part and as many bytes of key handle
    as it announces. *)
Definition complete_request (request : message) : Prop :=
  0 <= request_key_handle_size request /\
  72 + request_key_handle_size request
    <= Z.of_nat (length (payload request)).

(** A plain key handle is [private_key_bytes || application_param]. *)
Definition bound_application_param (key_handle : list Z) : list Z :=
  skipn (length key_handle - 32) key_handle.

Definition private_key_bytes (key_handle : list Z) : list Z :=
  firstn (length key_handle - 32) key_handle.

(** The plain key handle holds an application parameter, and its length
    is a [size_t]. *)
Definition key_handle_fits (key_handle : list Z) : Prop :=
  U2F_APP_PARAM_SIZE <= Z.of_nat (length key_handle) < SIZE_MODULUS.

(** The two bytes a status word is sent as, most significant first. *)
Definition sw_bytes (status : Z) : list Z :=
  [status / 256; status mod 256].

(** The last two bytes of a response. *)
Definition status_word (response : message) : list Z :=
  skipn (length (payload response) - 2) (payload response).

(** The counter field of an enforce response: the four bytes after the
    user presence byte. *)
Definition response_counter_field (response : message) : list Z :=
  firstn 4 (skipn 1 (payload response)).

(** The counter field of a signed buffer: the four bytes after the
    application parameter and the user presence byte. *)
Definition signed_counter_field (buffer : list Z) : list Z :=
  firstn 4 (skipn 33 buffer).

(** The 32-bit value of four bytes read least significant byte first,
    and read most significant byte first. *)
Definition le32_value (bytes : list Z) : Z :=
  nth 0 bytes 0 + 256 * nth 1 bytes 0
  + 65536 * nth 2 bytes 0 + 16777216 * nth 3 bytes 0.

Definition be32_value (bytes : list Z) : Z :=
  16777216 * nth 0 bytes 0 + 65536 * nth 1 bytes 0
  + 256 * nth 2 bytes 0 + nth 3 bytes 0.

(** The encoding the specification asks for: four bytes, most
    significant first. *)
Definition spec_counter_be (counter : Z) : list Z :=
  [ (counter / 16777216) mod 256;
    (counter / 65536) mod 256;
    (counter / 256) mod 256;
    counter mod 256 ].

(** The 16-bit value of two bytes read most significant byte first. *)
Definition be16_value (bytes : list Z) : Z :=
  256 * nth 0 bytes 0 + nth 1 bytes 0.

(** A value a [uint8_t] can hold. *)
Definition is_byte (b : Z) : Prop := 0 <= b < 256.

(** The request a client sends on channel [c]: the APDU header, the
    two parameters, the length of the ciphered key handle in one byte,
    the ciphered key handle, and whatever follows it (the [LE] bytes
    of the APDU). *)
Definition build_request (c : Z) (header cha app cipher trailer : list Z)
    : message :=
  mkMessage c CMD_MSG
    (header ++ cha ++ app ++ [Z.of_nat (length cipher)]
     ++ cipher ++ trailer).

(** Modelled from the spec: the handler of the HID command [INIT] is
    not among the sources, only its constants in [message.h] are; its
    response payload is the nonce, the channel, and the five version
    and capability bytes. *)
Definition init_response_payload (nonce new_cid : list Z) : list Z :=
  nonce ++ new_cid
  ++ [PROTOCOL_VERSION; MAJ_DEV_VERSION; MIN_DEV_VERSION;
      BUILD_DEV_VERSION; CAP_FLAGS].

(** ** Stand-ins for the primitives

    Small total functions in place of AES, SHA-256 and ECDSA, to run
    the handler on concrete requests.  None of the general results
    depends on them. *)
Module Fixture.

Definition key : Type := list Z.

Definition decrypt (cipher : list Z) : list Z :=
  map (fun b => Z.lxor b 0x5A) cipher.

Definition hash (data : list Z) : list Z :=
  [fold_left (fun acc b => (acc + b) mod 256) data 0].

Definition bytes_to_key (bytes : list Z) : key := bytes.

Definition sign (k : key) (digest : list Z) : list Z :=
  0x30 :: Z.of_nat (length k + length digest) :: k ++ digest.

Definition apdu_header (p1 : Z) : list Z := [0; 2; p1; 0; 0; 0; 113].

Definition challenge : list Z := repeat 0xAA 32.
Definition later_challenge : list Z := repeat 0xDD 32.
Definition application : list Z := repeat 0xBB 32.
Definition other_application : list Z := repeat 0xCC 32.
Definition private_key : list Z := repeat 0x11 16.

(** The ciphered key handle that wraps [private_key] bound to [app]. *)
Definition wrap (app : list Z) : list Z := decrypt (private_key ++ app).

(** A request on channel [0x01020304] in the sub-mode [p1], with the
    challenge [cha], for the application [application], with a key
    handle bound to [app]. *)
Definition request (p1 : Z) (cha app : list Z) : message :=
  mkMessage 0x01020304 CMD_MSG
    (apdu_header p1 ++ cha ++ application
     ++ [Z.of_nat (length (wrap app))] ++ wrap app).

(** A request whose plain key handle is four bytes long. *)
Definition short_request (p1 : Z) : message :=
  mkMessage 0x01020304 CMD_MSG
    (apdu_header p1 ++ challenge ++ application ++ [4; 1; 2; 3; 4]).

Definition check := raw_authenticate_check decrypt.
Definition enforce :=
  raw_authenticate_enforce key decrypt hash bytes_to_key sign.
Definition handler :=
  raw_authenticate_handler key decrypt hash bytes_to_key sign.

(** The response of [run] when there is one, an empty message on
    channel 0 otherwise. *)
Definition response_of (run : result (option message)) : message :=
  match run with
  | Done (Some response) => response
  | _ => message_new_blank 0 0
  end.

(** An enforce request with a key handle of its application, a later
    one with another challenge, and one with a key handle of another
    application. *)
Definition enforce_request : message := request 3 challenge application.
Definition later_request : message :=
  request 3 later_challenge application.
Definition mismatched_request : message :=
  request 3 challenge other_application.

Definition enforce_response : message :=
  Eval vm_compute in response_of (enforce enforce_request).
Definition later_response : message :=
  Eval vm_compute in response_of (enforce later_request).

(** The same in the check-only sub-mode, in the don't-enforce
    sub-mode, and in a sub-mode that does not exist. *)
Definition check_request : message := request 7 challenge application.
Definition no_enforce_request : message :=
  request 8 challenge application.
Definition unknown_request : message := request 9 challenge application.

Definition check_response : message :=
  Eval vm_compute in response_of (check check_request).

(** An enforce request cut short after three of the 48 bytes of key
    handle it announces. *)
Definition truncated_request : message :=
  mkMessage 0x01020304 CMD_MSG
    (apdu_header 3 ++ challenge ++ application ++ [48; 1; 2; 3]).

(** A signature stand-in that yields bytes whatever the key is. *)
Definition byte_sign (k : key) (digest : list Z) : list Z :=
  map (fun b => b mod 256) (sign k digest).

End Fixture.

(** * Properties *)

(** Closes a goal about closed terms by evaluation. *)
Ltac run :=
  first
    [ reflexivity
    | vm_compute; first [reflexivity | discriminate]
    | split; run ].

(** ** Buffers and sizes *)

Lemma read_bytes_inside (buf : list Z) (off n : Z) :
  0 <= off -> 0 <= n -> off + n <= Z.of_nat (length buf) ->
  read_bytes buf off n
  = Done (firstn (Z.to_nat n) (skipn (Z.to_nat off) buf)).
Proof.
  intros Hoff Hn Hend. unfold read_bytes.
  destruct (0 <=? off) eqn:E1; [| lia].
  destruct (0 <=? n) eqn:E2; [| lia].
  destruct (off + n <=? Z.of_nat (length buf)) eqn:E3; [| lia].
  reflexivity.
Qed.

Lemma read_bytes_outside (buf : list Z) (off n : Z) :
  Z.of_nat (length buf) < off + n ->
  read_bytes buf off n = Fault OutOfBounds.
Proof.
  intros Hend. unfold read_bytes.
  destruct (off + n <=? Z.of_nat (length buf)) eqn:E3; [lia |].
  now rewrite andb_false_r.
Qed.

Lemma memcmp_refl (a : list Z) (n : nat) : memcmp a a n = 0.
Proof.
  revert a. induction n as [| n IH]; intros [| x a]; cbn; try reflexivity.
  now rewrite Z.eqb_refl.
Qed.

Lemma memcmp_zero (n : nat) (a b : list Z) :
  length a = n -> length b = n -> memcmp a b n = 0 -> a = b.
Proof.
  revert a b. induction n as [| n IH]; intros [| x a] [| y b]; cbn;
    try discriminate; try reflexivity.
  intros [= Ha] [= Hb]. destruct (x =? y) eqn:E.
  - apply Z.eqb_eq in E. intros H. f_equal; [exact E | now apply IH].
  - apply Z.eqb_neq in E. lia.
Qed.

Lemma memcmp_zero_iff (n : nat) (a b : list Z) :
  length a = n -> length b = n -> memcmp a b n = 0 <-> a = b.
Proof.
  intros Ha Hb. split.
  - now apply memcmp_zero.
  - intros ->. apply memcmp_refl.
Qed.

Lemma size_sub_exact (size : Z) :
  U2F_APP_PARAM_SIZE <= size < SIZE_MODULUS ->
  size_sub size U2F_APP_PARAM_SIZE = size - 32.
Proof.
  unfold size_sub, U2F_APP_PARAM_SIZE, SIZE_MODULUS. intros H.
  apply Z.mod_small. lia.
Qed.

Lemma size_sub_wraps (size : Z) :
  0 <= size < U2F_APP_PARAM_SIZE ->
  size_sub size U2F_APP_PARAM_SIZE = size - 32 + SIZE_MODULUS.
Proof.
  unfold size_sub, U2F_APP_PARAM_SIZE, SIZE_MODULUS. intros H.
  symmetry. apply Z.mod_unique_pos with (q := -1); lia.
Qed.

Lemma sw_encoding (m : message) (status : Z) :
  0 <= status < 65536 ->
  payload (authenticate_response_sw m status) = payload m ++ sw_bytes status.
Proof.
  intros H. unfold authenticate_response_sw, message_add_data, sw_bytes, u8.
  cbn [payload]. do 2 f_equal.
  - change 255 with (Z.ones 8). rewrite Z.land_ones by lia.
    rewrite Z.shiftr_div_pow2 by lia. change (2 ^ 8) with 256.
    apply Z.mod_small. split.
    + apply Z.div_pos; lia.
    + apply Z.div_lt_upper_bound; lia.
  - f_equal. change 0xFF with (Z.ones 8). now rewrite Z.land_ones by lia.
Qed.

Lemma status_word_app (c k : Z) (body sw : list Z) :
  length sw = 2%nat ->
  status_word (mkMessage c k (body ++ sw)) = sw.
Proof.
  intros H. unfold status_word. cbn [payload].
  rewrite length_app, H.
  replace (length body + 2 - 2)%nat with (length body) by lia.
  now rewrite skipn_app, skipn_all, Nat.sub_diag.
Qed.

(** ** Reading the request *)

Lemma read_params_complete (request : message) :
  72 <= Z.of_nat (length (payload request)) ->
  read_params request
  = Done (mkParams (request_challenge_param request)
            (request_application_param request)
            (request_key_handle_size request)).
Proof.
  intros Hlen. unfold read_params, message_read.
  change (Z.to_nat U2F_APDU_HEADER_SIZE) with 7%nat.
  change (Z.to_nat SIZEOF_PARAMS) with 65%nat.
  change (Z.to_nat U2F_CHA_PARAM_SIZE) with 32%nat.
  change (Z.to_nat U2F_APP_PARAM_SIZE) with 32%nat.
  change (Z.to_nat (U2F_CHA_PARAM_SIZE + U2F_APP_PARAM_SIZE)) with 64%nat.
  change SIZEOF_PARAMS with 65.
  rewrite length_firstn, length_skipn.
  destruct (Z.of_nat (Init.Nat.min 65 (length (payload request) - 7)) <? 65)
    eqn:E; [apply Z.ltb_lt in E; lia |].
  unfold request_challenge_param, request_application_param,
    request_key_handle_size.
  f_equal. f_equal.
  - rewrite firstn_firstn. reflexivity.
  - rewrite skipn_firstn_comm, firstn_firstn, skipn_skipn. reflexivity.
  - rewrite nth_firstn, nth_skipn. reflexivity.
Qed.

Lemma read_params_short (request : message) :
  Z.of_nat (length (payload request)) < 72 ->
  read_params request = Fault Indeterminate.
Proof.
  intros Hlen. unfold read_params, message_read.
  change (Z.to_nat U2F_APDU_HEADER_SIZE) with 7%nat.
  change (Z.to_nat SIZEOF_PARAMS) with 65%nat.
  change SIZEOF_PARAMS with 65.
  rewrite length_firstn, length_skipn.
  destruct (Z.of_nat (Init.Nat.min 65 (length (payload request) - 7)) <? 65)
    eqn:E; [reflexivity | apply Z.ltb_ge in E; lia].
Qed.

Lemma key_handle_cipher_length (request : message) :
  complete_request request ->
  Z.of_nat (length (request_key_handle_cipher request))
  = request_key_handle_size request.
Proof.
  intros [Hpos Hlen]. unfold request_key_handle_cipher.
  rewrite length_firstn, length_skipn. lia.
Qed.

Lemma get_key_handle_cipher_complete (request : message)
    (cha app : list Z) :
  complete_request request ->
  authenticate_get_key_handle_cipher request
    (mkParams cha app (request_key_handle_size request))
  = Done (request_key_handle_cipher request,
          request_key_handle_size request).
Proof.
  intros Hreq. pose proof (key_handle_cipher_length request Hreq) as Hlen.
  unfold authenticate_get_key_handle_cipher, message_read.
  cbn [key_handle_size].
  change (Z.to_nat (U2F_APDU_HEADER_SIZE + U2F_APP_PARAM_SIZE
                    + U2F_CHA_PARAM_SIZE + 1)) with 72%nat.
  fold (request_key_handle_cipher request). rewrite Hlen.
  now rewrite Z.ltb_irrefl.
Qed.

Lemma bound_application_param_length (key_handle : list Z) :
  key_handle_fits key_handle ->
  length (bound_application_param key_handle) = 32%nat.
Proof.
  unfold key_handle_fits, bound_application_param, U2F_APP_PARAM_SIZE.
  intros H. rewrite length_skipn. lia.
Qed.

Lemma request_application_param_length (request : message) :
  72 <= Z.of_nat (length (payload request)) ->
  length (request_application_param request) = 32%nat.
Proof.
  intros H. unfold request_application_param.
  rewrite length_firstn, length_skipn. lia.
Qed.

Lemma request_challenge_param_length (request : message) :
  72 <= Z.of_nat (length (payload request)) ->
  length (request_challenge_param request) = 32%nat.
Proof.
  intros H. unfold request_challenge_param.
  rewrite length_firstn, length_skipn. lia.
Qed.

(** The two reads of the plain key handle. *)

Lemma read_bound_application_param (key_handle : list Z) :
  key_handle_fits key_handle ->
  read_bytes key_handle
    (size_sub (Z.of_nat (length key_handle)) U2F_APP_PARAM_SIZE)
    U2F_APP_PARAM_SIZE
  = Done (bound_application_param key_handle).
Proof.
  intros Hfit. rewrite size_sub_exact by exact Hfit.
  pose proof (bound_application_param_length key_handle Hfit) as Hlen.
  unfold key_handle_fits, U2F_APP_PARAM_SIZE in *.
  rewrite read_bytes_inside by lia. f_equal.
  replace (Z.to_nat (Z.of_nat (length key_handle) - 32))
    with (length key_handle - 32)%nat by lia.
  fold (bound_application_param key_handle).
  apply firstn_all2. change (Z.to_nat 32) with 32%nat. lia.
Qed.

Lemma read_private_key_bytes (key_handle : list Z) :
  key_handle_fits key_handle ->
  read_bytes key_handle 0
    (size_sub (Z.of_nat (length key_handle)) U2F_APP_PARAM_SIZE)
  = Done (private_key_bytes key_handle).
Proof.
  intros Hfit. rewrite size_sub_exact by exact Hfit.
  unfold key_handle_fits, U2F_APP_PARAM_SIZE in *.
  rewrite read_bytes_inside by lia. f_equal.
  replace (Z.to_nat (Z.of_nat (length key_handle) - 32))
    with (length key_handle - 32)%nat by lia.
  reflexivity.
Qed.

Lemma read_bound_application_param_short (key_handle : list Z) :
  Z.of_nat (length key_handle) < U2F_APP_PARAM_SIZE ->
  read_bytes key_handle
    (size_sub (Z.of_nat (length key_handle)) U2F_APP_PARAM_SIZE)
    U2F_APP_PARAM_SIZE
  = Fault OutOfBounds.
Proof.
  intros Hshort. apply read_bytes_outside.
  rewrite size_sub_wraps by lia.
  unfold U2F_APP_PARAM_SIZE, SIZE_MODULUS in *. lia.
Qed.

Lemma read_private_key_bytes_short (key_handle : list Z) :
  Z.of_nat (length key_handle) < U2F_APP_PARAM_SIZE ->
  read_bytes key_handle 0
    (size_sub (Z.of_nat (length key_handle)) U2F_APP_PARAM_SIZE)
  = Fault OutOfBounds.
Proof.
  intros Hshort. apply read_bytes_outside.
  rewrite size_sub_wraps by lia.
  unfold U2F_APP_PARAM_SIZE, SIZE_MODULUS in *. lia.
Qed.

(** ** The two sub-modes, run on a complete request *)

Section Handler.

Variable EC_KEY : Type.
Variable crypto_aes_decrypt : list Z -> list Z.
Variable crypto_hash : list Z -> list Z.
Variable crypto_ec_bytes_to_key : list Z -> EC_KEY.
Variable crypto_ec_sign_with_key : EC_KEY -> list Z -> list Z.

Local Abbreviation check := (raw_authenticate_check crypto_aes_decrypt).
Local Abbreviation enforce :=
  (raw_authenticate_enforce EC_KEY crypto_aes_decrypt crypto_hash
     crypto_ec_bytes_to_key crypto_ec_sign_with_key).
Local Abbreviation handler :=
  (raw_authenticate_handler EC_KEY crypto_aes_decrypt crypto_hash
     crypto_ec_bytes_to_key crypto_ec_sign_with_key).

(** The plain key handle of a request. *)
Local Abbreviation plain request :=
  (crypto_aes_decrypt (request_key_handle_cipher request)).

(** The parameters the handlers read from a request. *)
Local Abbreviation params_of request :=
  (mkParams (request_challenge_param request)
     (request_application_param request)
     (request_key_handle_size request)).

(** The signature the enforce path computes for a request. *)
Local Abbreviation signature_of request :=
  (crypto_ec_sign_with_key
     (crypto_ec_bytes_to_key (private_key_bytes (plain request)))
     (crypto_hash (buffer_to_sign (params_of request) 1 1))).

Lemma decrypt_complete (request : message) :
  complete_request request ->
  authenticate_decrypt_key_handle_cipher crypto_aes_decrypt
    (request_key_handle_cipher request) (request_key_handle_size request)
  = Done (plain request, Z.of_nat (length (plain request))).
Proof.
  intros Hreq. pose proof (key_handle_cipher_length request Hreq) as Hlen.
  unfold authenticate_decrypt_key_handle_cipher.
  rewrite read_bytes_inside by lia. cbn [bind Z.to_nat skipn].
  rewrite firstn_all2 by lia. reflexivity.
Qed.

Lemma complete_request_length (request : message) :
  complete_request request -> 72 <= Z.of_nat (length (payload request)).
Proof. intros [Hpos Hlen]. lia. Qed.

Lemma check_run (request : message) :
  complete_request request ->
  key_handle_fits (plain request) ->
  check request
  = Done (Some (mkMessage (cid request) CMD_MSG
       (sw_bytes
          (if memcmp (bound_application_param (plain request))
                (request_application_param request) 32 =? 0
           then SW_CONDITIONS_NOT_SATISFIED else SW_WRONG_DATA)))).
Proof.
  intros Hreq Hfit. unfold raw_authenticate_check.
  rewrite read_params_complete by now apply complete_request_length.
  cbn [bind]. rewrite get_key_handle_cipher_complete by exact Hreq.
  cbn [bind]. rewrite decrypt_complete by exact Hreq.
  cbn [bind]. rewrite read_bound_application_param by exact Hfit.
  cbn [bind application_param].
  change (Z.to_nat U2F_APP_PARAM_SIZE) with 32%nat.
  destruct (memcmp _ _ 32 =? 0); reflexivity.
Qed.

Lemma enforce_run (request : message) :
  complete_request request ->
  key_handle_fits (plain request) ->
  enforce request
  = Done (Some (mkMessage (cid request) CMD_MSG
       ([1] ++ counter_buffer 1 ++ signature_of request
        ++ sw_bytes SW_NO_ERROR))).
Proof.
  intros Hreq Hfit. unfold raw_authenticate_enforce.
  rewrite read_params_complete by now apply complete_request_length.
  cbn [bind]. rewrite get_key_handle_cipher_complete by exact Hreq.
  cbn [bind key_handle_size]. rewrite decrypt_complete by exact Hreq.
  cbn [bind]. unfold authenticate_get_pubkey_from_key_handle.
  rewrite read_private_key_bytes by exact Hfit.
  reflexivity.
Qed.

Lemma check_short_key_handle (request : message) :
  complete_request request ->
  Z.of_nat (length (plain request)) < U2F_APP_PARAM_SIZE ->
  check request = Fault OutOfBounds.
Proof.
  intros Hreq Hshort. unfold raw_authenticate_check.
  rewrite read_params_complete by now apply complete_request_length.
  cbn [bind]. rewrite get_key_handle_cipher_complete by exact Hreq.
  cbn [bind]. rewrite decrypt_complete by exact Hreq.
  cbn [bind]. now rewrite read_bound_application_param_short.
Qed.

Lemma enforce_short_key_handle (request : message) :
  complete_request request ->
  Z.of_nat (length (plain request)) < U2F_APP_PARAM_SIZE ->
  enforce request = Fault OutOfBounds.
Proof.
  intros Hreq Hshort. unfold raw_authenticate_enforce.
  rewrite read_params_complete by now apply complete_request_length.
  cbn [bind]. rewrite get_key_handle_cipher_complete by exact Hreq.
  cbn [bind key_handle_size]. rewrite decrypt_complete by exact Hreq.
  cbn [bind]. unfold authenticate_get_pubkey_from_key_handle.
  now rewrite read_private_key_bytes_short.
Qed.

(** The handler selects the sub-mode by the third byte of the request. *)
Lemma handler_p1 (request : message) (p1 : Z) :
  nth_error (payload request) 2 = Some p1 ->
  handler request
  = if p1 =? U2F_AUTH_CHECK then check request
    else if p1 =? U2F_AUTH_ENFORCE then enforce request
    else Done None.
Proof.
  intros Hp1. unfold raw_authenticate_handler, frame_header_p1.
  rewrite Hp1. cbn [bind]. unfold raw_authenticate_no_enforce.
  destruct (p1 =? U2F_AUTH_CHECK), (p1 =? U2F_AUTH_ENFORCE),
    (p1 =? U2F_AUTH_NO_ENFORCE); reflexivity.
Qed.

(** What a run that returns has read and built. *)

Lemma read_params_done (request : message) (p : authentification_params) :
  read_params request = Done p ->
  72 <= Z.of_nat (length (payload request)) /\ p = params_of request.
Proof.
  intros Hrun.
  destruct (Z_lt_le_dec (Z.of_nat (length (payload request))) 72) as [Hs | Hl].
  - rewrite read_params_short in Hrun by exact Hs. discriminate.
  - rewrite read_params_complete in Hrun by exact Hl.
    injection Hrun as <-. now split.
Qed.

Lemma check_done (request response : message) :
  check request = Done (Some response) ->
  exists status,
    (status = SW_WRONG_DATA \/ status = SW_CONDITIONS_NOT_SATISFIED) /\
    response = mkMessage (cid request) CMD_MSG (sw_bytes status).
Proof.
  unfold raw_authenticate_check.
  destruct (read_params request) as [p | f]; [| discriminate].
  cbn [bind].
  destruct (authenticate_get_key_handle_cipher request p)
    as [[cipher size] | f]; [| discriminate].
  cbn [bind].
  destruct (authenticate_decrypt_key_handle_cipher _ cipher size)
    as [[key_handle size'] | f]; [| discriminate].
  cbn [bind].
  destruct (read_bytes key_handle _ _) as [bound | f]; [| discriminate].
  cbn [bind].
  destruct (negb _); intros [= <-].
  - exists SW_WRONG_DATA. split; [now left | reflexivity].
  - exists SW_CONDITIONS_NOT_SATISFIED. split; [now right | reflexivity].
Qed.

Lemma enforce_done (request response : message) :
  enforce request = Done (Some response) ->
  72 <= Z.of_nat (length (payload request)) /\
  exists key_bytes,
    response
    = mkMessage (cid request) CMD_MSG
        ([1] ++ counter_buffer 1
         ++ crypto_ec_sign_with_key (crypto_ec_bytes_to_key key_bytes)
              (crypto_hash (buffer_to_sign (params_of request) 1 1))
         ++ sw_bytes SW_NO_ERROR).
Proof.
  unfold raw_authenticate_enforce.
  destruct (read_params request) as [p | f] eqn:Hp; [| discriminate].
  apply read_params_done in Hp as [Hlen ->].
  cbn [bind].
  destruct (authenticate_get_key_handle_cipher request _)
    as [[cipher size] | f]; [| discriminate].
  cbn [bind].
  destruct (authenticate_decrypt_key_handle_cipher _ cipher _)
    as [[key_handle size'] | f]; [| discriminate].
  cbn [bind]. unfold authenticate_get_pubkey_from_key_handle.
  destruct (read_bytes key_handle _ _) as [key_bytes | f]; [| discriminate].
  cbn [bind]. intros [= <-]. split; [exact Hlen |].
  exists key_bytes. reflexivity.
Qed.

(** ** The counter bytes *)

Lemma counter_buffer_bytes (counter : Z) :
  counter_buffer counter
  = [ counter mod 256; (counter / 256) mod 256;
      (counter / 65536) mod 256; (counter / 16777216) mod 256 ].
Proof.
  unfold counter_buffer. change 0xFF with (Z.ones 8).
  rewrite !Z.land_ones, !Z.shiftr_div_pow2 by lia. reflexivity.
Qed.

Lemma le32_counter_buffer (counter : Z) :
  0 <= counter < 2 ^ 32 ->
  le32_value (counter_buffer counter) = counter.
Proof.
  intros Hc. rewrite counter_buffer_bytes. unfold le32_value. cbn [nth].
  change 65536 with (256 * 256).
  change 16777216 with (256 * 256 * 256).
  rewrite <- !Z.div_div by lia.
  set (a := counter / 256). set (b := a / 256). set (d := b / 256).
  assert (Hd : d mod 256 = d).
  { apply Z.mod_small. subst d b a. split.
    - repeat apply Z.div_pos; lia.
    - repeat (apply Z.div_lt_upper_bound; [lia |]). lia. }
  rewrite Hd.
  pose proof (Z.div_mod counter 256 ltac:(lia)) as H0.
  pose proof (Z.div_mod a 256 ltac:(lia)) as H1.
  pose proof (Z.div_mod b 256 ltac:(lia)) as H2.
  fold a in H0. fold b in H1. fold d in H2. lia.
Qed.

Lemma signed_counter_field_buffer (p : authentification_params)
    (presence counter : Z) :
  length (application_param p) = 32%nat ->
  signed_counter_field (buffer_to_sign p presence counter)
  = counter_buffer counter.
Proof.
  intros Happ. unfold signed_counter_field, buffer_to_sign.
  rewrite skipn_app, Happ.
  rewrite (skipn_all2 (application_param p)) by lia.
  reflexivity.
Qed.

(** The buffer that is signed fills the [buffer_to_sign_size] bytes the
    source allocates for it. *)
Lemma buffer_to_sign_length (request : message) (presence counter : Z) :
  72 <= Z.of_nat (length (payload request)) ->
  Z.of_nat (length (buffer_to_sign (params_of request) presence counter))
  = U2F_APP_PARAM_SIZE + 1 + 4 + U2F_CHA_PARAM_SIZE.
Proof.
  intros Hlen. unfold buffer_to_sign.
  cbn [application_param challenge_param].
  rewrite !length_app, request_application_param_length,
    request_challenge_param_length by exact Hlen.
  reflexivity.
Qed.

(** ** The claims of the specification *)

(** C1. The specification asks that an enforce request whose key handle
    is bound to another application parameter than the one of the
    request be answered with [SW_WRONG_DATA] and no signature.  The
    enforce path never compares the two: on such a request it answers
    with the user presence, the counter, a signature and
    [SW_NO_ERROR], as on any other. *)
Theorem enforce_signs_on_mismatch (request : message) :
  nth_error (payload request) 2 = Some U2F_AUTH_ENFORCE ->
  complete_request request ->
  key_handle_fits (plain request) ->
  bound_application_param (plain request)
    <> request_application_param request ->
  exists response,
    handler request = Done (Some response) /\
    payload response
    = [1] ++ counter_buffer 1 ++ signature_of request
      ++ sw_bytes SW_NO_ERROR /\
    status_word response = sw_bytes SW_NO_ERROR /\
    status_word response <> sw_bytes SW_WRONG_DATA.
Proof.
  intros Hp1 Hreq Hfit _.
  rewrite (handler_p1 request _ Hp1). cbn [Z.eqb U2F_AUTH_ENFORCE
    U2F_AUTH_CHECK Pos.eqb].
  rewrite enforce_run by assumption.
  eexists. split; [reflexivity |]. split; [reflexivity |].
  assert (Hsw : status_word
            (mkMessage (cid request) CMD_MSG
               ([1] ++ counter_buffer 1 ++ signature_of request
                ++ sw_bytes SW_NO_ERROR))
          = sw_bytes SW_NO_ERROR).
  { rewrite !app_assoc. now apply status_word_app. }
  split; [exact Hsw |]. rewrite Hsw. discriminate.
Qed.

(** C2, as amended.  The counter is written least significant byte
    first, in the response and in the buffer that is signed: the four
    bytes of [counter_buffer] read back little-endian give the counter,
    and every enforce response carries them after the user presence
    byte, and signs a buffer that carries them after the application
    parameter and the user presence byte. *)
Theorem counter_fields_little_endian (request response : message) :
  enforce request = Done (Some response) ->
  (forall counter, 0 <= counter < 2 ^ 32 ->
     le32_value (counter_buffer counter) = counter) /\
  response_counter_field response = counter_buffer 1 /\
  le32_value (response_counter_field response) = 1 /\
  (exists key,
     payload response
     = [1] ++ counter_buffer 1
       ++ crypto_ec_sign_with_key key
            (crypto_hash (buffer_to_sign (params_of request) 1 1))
       ++ sw_bytes SW_NO_ERROR) /\
  signed_counter_field (buffer_to_sign (params_of request) 1 1)
  = counter_buffer 1 /\
  le32_value (signed_counter_field (buffer_to_sign (params_of request) 1 1))
  = 1.
Proof.
  intros Hrun. apply enforce_done in Hrun as [Hlen [key_bytes ->]].
  split; [exact le32_counter_buffer |].
  split; [reflexivity |]. split; [reflexivity |].
  split; [now exists (crypto_ec_bytes_to_key key_bytes) |].
  rewrite signed_counter_field_buffer
    by (cbn [application_param];
        now apply request_application_param_length).
  split; reflexivity.
Qed.

(** C3. An enforce request that is complete, with a plain key handle
    that holds an application parameter, is answered on its channel
    with the user presence byte [01], the four counter bytes
    [01 00 00 00] of the counter 1, the signature and [SW_NO_ERROR],
    [90 00]; the signature is made with the key rebuilt from the
    private key bytes of the plain key handle, over the hash of the
    application parameter, the user presence byte, the same four
    counter bytes and the challenge parameter of the request. *)
Theorem enforce_response_layout (request : message) :
  nth_error (payload request) 2 = Some U2F_AUTH_ENFORCE ->
  complete_request request ->
  key_handle_fits (plain request) ->
  let user_presence := [1] in
  let counter := [1; 0; 0; 0] in
  let key := crypto_ec_bytes_to_key (private_key_bytes (plain request)) in
  let signed :=
    request_application_param request ++ user_presence ++ counter
    ++ request_challenge_param request in
  let signature := crypto_ec_sign_with_key key (crypto_hash signed) in
  handler request
  = Done (Some (mkMessage (cid request) CMD_MSG
       (user_presence ++ counter ++ signature ++ [0x90; 0x00]))) /\
  counter_buffer 1 = counter /\
  le32_value counter = 1 /\
  length user_presence = 1%nat /\
  length counter = 4%nat /\
  sw_bytes SW_NO_ERROR = [0x90; 0x00].
Proof.
  intros Hp1 Hreq Hfit. cbv zeta.
  rewrite (handler_p1 request _ Hp1). cbn [Z.eqb U2F_AUTH_ENFORCE
    U2F_AUTH_CHECK Pos.eqb].
  rewrite enforce_run by assumption.
  repeat split.
Qed.

(** C4. A check-only request that is complete, with a plain key handle
    that holds an application parameter, is answered with
    [SW_CONDITIONS_NOT_SATISFIED] when that application parameter is
    the one of the request and with [SW_WRONG_DATA] when it is not; the
    payload of the response is the two bytes of the status word and
    nothing else. *)
Theorem check_only_status (request : message) :
  nth_error (payload request) 2 = Some U2F_AUTH_CHECK ->
  complete_request request ->
  key_handle_fits (plain request) ->
  (bound_application_param (plain request)
   = request_application_param request ->
   handler request
   = Done (Some (mkMessage (cid request) CMD_MSG
        (sw_bytes SW_CONDITIONS_NOT_SATISFIED)))) /\
  (bound_application_param (plain request)
   <> request_application_param request ->
   handler request
   = Done (Some (mkMessage (cid request) CMD_MSG
        (sw_bytes SW_WRONG_DATA)))) /\
  sw_bytes SW_CONDITIONS_NOT_SATISFIED = [0x69; 0x85] /\
  sw_bytes SW_WRONG_DATA = [0x6A; 0x80].
Proof.
  intros Hp1 Hreq Hfit.
  rewrite (handler_p1 request _ Hp1). cbn [Z.eqb U2F_AUTH_CHECK Pos.eqb].
  rewrite check_run by assumption.
  pose proof (memcmp_zero_iff 32
    (bound_application_param (plain request))
    (request_application_param request)
    (bound_application_param_length _ Hfit)
    (request_application_param_length _
       (complete_request_length _ Hreq))) as Hcmp.
  destruct (memcmp _ _ 32 =? 0) eqn:E.
  - apply Z.eqb_eq in E. apply Hcmp in E.
    split; [reflexivity |]. split; [intros Hne; contradiction |].
    split; reflexivity.
  - apply Z.eqb_neq in E.
    split; [intros Heq; apply Hcmp in Heq; contradiction |].
    split; [reflexivity |]. split; reflexivity.
Qed.

(** C5, as amended.  A request in the don't-enforce sub-mode
    ([P1 = 0x08]) is not treated as an enforce request: the handler
    returns no response message for it, whatever the request holds, so
    its result is never the response message of the enforce path. *)
Theorem no_enforce_returns_null (request : message) :
  nth_error (payload request) 2 = Some U2F_AUTH_NO_ENFORCE ->
  handler request = Done None /\
  (forall response,
     enforce request = Done (Some response) ->
     handler request <> enforce request).
Proof.
  intros Hp1. rewrite (handler_p1 request _ Hp1).
  cbn [Z.eqb U2F_AUTH_NO_ENFORCE U2F_AUTH_CHECK U2F_AUTH_ENFORCE Pos.eqb].
  split; [reflexivity |]. intros response ->. discriminate.
Qed.

(** C6, as amended.  The counter is the constant 1: every enforce
    response carries the four bytes [01 00 00 00], so the counter of an
    enforce response equals the counter of the enforce response before
    it and is never greater. *)
Theorem counter_is_constant (previous next : message)
    (previous_response next_response : message) :
  enforce previous = Done (Some previous_response) ->
  enforce next = Done (Some next_response) ->
  response_counter_field previous_response = [1; 0; 0; 0] /\
  response_counter_field next_response = [1; 0; 0; 0] /\
  le32_value (response_counter_field next_response)
  = le32_value (response_counter_field previous_response) /\
  ~ le32_value (response_counter_field previous_response)
    < le32_value (response_counter_field next_response).
Proof.
  intros Hprev Hnext.
  apply enforce_done in Hprev as [_ [k1 ->]].
  apply enforce_done in Hnext as [_ [k2 ->]].
  split; [reflexivity |]. split; [reflexivity |].
  split; [reflexivity |]. apply Z.lt_irrefl.
Qed.

(** C8. A request whose [P1] byte is none of [0x03], [0x07] and [0x08]
    gets no response message from the handler. *)
Theorem unknown_p1_returns_null (request : message) (p1 : Z) :
  nth_error (payload request) 2 = Some p1 ->
  p1 <> 0x03 -> p1 <> 0x07 -> p1 <> 0x08 ->
  handler request = Done None.
Proof.
  intros Hp1 Henforce Hcheck Hno. rewrite (handler_p1 request _ Hp1).
  destruct (p1 =? U2F_AUTH_CHECK) eqn:E7;
    [apply Z.eqb_eq in E7; contradiction |].
  destruct (p1 =? U2F_AUTH_ENFORCE) eqn:E3;
    [apply Z.eqb_eq in E3; contradiction |].
  reflexivity.
Qed.

(** C9. Both paths subtract [U2F_APP_PARAM_SIZE] from the length of the
    plain key handle without a test.  When the plain key handle holds
    at least [U2F_APP_PARAM_SIZE] bytes the subtraction is exact, the
    comparison of the application parameter and the extraction of the
    private key read inside the key handle, and both paths answer.
    When it holds fewer the subtraction wraps around, and both paths
    read outside the key handle. *)
Theorem privkey_size_guard (request : message) :
  complete_request request ->
  let key_handle := plain request in
  let key_handle_size := Z.of_nat (length key_handle) in
  let privkey_size := size_sub key_handle_size U2F_APP_PARAM_SIZE in
  (key_handle_fits key_handle ->
   privkey_size = key_handle_size - U2F_APP_PARAM_SIZE /\
   0 <= privkey_size /\
   privkey_size + U2F_APP_PARAM_SIZE <= key_handle_size /\
   read_bytes key_handle privkey_size U2F_APP_PARAM_SIZE
   = Done (bound_application_param key_handle) /\
   read_bytes key_handle 0 privkey_size
   = Done (private_key_bytes key_handle) /\
   (exists response, check request = Done (Some response)) /\
   (exists response, enforce request = Done (Some response))) /\
  (key_handle_size < U2F_APP_PARAM_SIZE ->
   privkey_size = key_handle_size - U2F_APP_PARAM_SIZE + SIZE_MODULUS /\
   key_handle_size < privkey_size /\
   read_bytes key_handle privkey_size U2F_APP_PARAM_SIZE
   = Fault OutOfBounds /\
   read_bytes key_handle 0 privkey_size = Fault OutOfBounds /\
   check request = Fault OutOfBounds /\
   enforce request = Fault OutOfBounds).
Proof.
  intros Hreq. cbv zeta. split.
  - intros Hfit. pose proof (size_sub_exact _ Hfit) as Hsub.
    rewrite read_bound_application_param, read_private_key_bytes
      by exact Hfit.
    rewrite check_run, enforce_run by assumption.
    rewrite Hsub. unfold key_handle_fits, U2F_APP_PARAM_SIZE in *.
    repeat (split; [first [reflexivity | lia] |]).
    split; eexists; reflexivity.
  - intros Hshort.
    assert (Hsub := size_sub_wraps (Z.of_nat (length (plain request)))
                      ltac:(lia)).
    rewrite read_bound_application_param_short,
      read_private_key_bytes_short by exact Hshort.
    rewrite check_short_key_handle, enforce_short_key_handle
      by assumption.
    rewrite Hsub. unfold U2F_APP_PARAM_SIZE, SIZE_MODULUS in *.
    repeat (split; [first [reflexivity | lia] |]). reflexivity.
Qed.

(** C10. A response message of the check path or of the enforce path is
    on the channel of the request and under the command [CMD_MSG]. *)
Theorem response_channel_and_command (request response : message) :
  check request = Done (Some response) \/
  enforce request = Done (Some response) ->
  cid response = cid request /\ cmd response = CMD_MSG.
Proof.
  intros [Hrun | Hrun].
  - apply check_done in Hrun as [status [_ ->]]. now split.
  - apply enforce_done in Hrun as [_ [key_bytes ->]]. now split.
Qed.

End Handler.

(** C7. The payload of an [INIT] response ends, after the eight bytes of
    the nonce and the four bytes of the channel, with the protocol
    version 2, the device version 0.1.0 and the capability flags 0. *)
Theorem init_response_trailer (nonce new_cid : list Z) :
  Z.of_nat (length nonce) = U2FHID_INIT_BCNT ->
  length new_cid = 4%nat ->
  firstn 8 (init_response_payload nonce new_cid) = nonce /\
  firstn 4 (skipn 8 (init_response_payload nonce new_cid)) = new_cid /\
  skipn 12 (init_response_payload nonce new_cid) = [2; 0; 1; 0; 0] /\
  length (init_response_payload nonce new_cid) = 17%nat.
Proof.
  unfold U2FHID_INIT_BCNT, init_response_payload. intros Hnonce Hcid.
  assert (Hn : length nonce = 8%nat) by lia. clear Hnonce.
  do 9 (destruct nonce as [| ? nonce]; try discriminate Hn).
  do 5 (destruct new_cid as [| ? new_cid]; try discriminate Hcid).
  repeat split.
Qed.

(** * Runs on concrete requests *)

(** An enforce request with the key handle of another application is
    signed and answered with [SW_NO_ERROR]. *)
Lemma enforce_signs_on_mismatch_witness :
  (nth_error (payload Fixture.mismatched_request) 2 = Some U2F_AUTH_ENFORCE /\
   complete_request Fixture.mismatched_request /\
   key_handle_fits
     (Fixture.decrypt
        (request_key_handle_cipher Fixture.mismatched_request)) /\
   bound_application_param
     (Fixture.decrypt
        (request_key_handle_cipher Fixture.mismatched_request))
   <> request_application_param Fixture.mismatched_request) /\
  exists response,
    Fixture.handler Fixture.mismatched_request = Done (Some response) /\
    payload response
    = [1] ++ counter_buffer 1
      ++ Fixture.sign
           (Fixture.bytes_to_key
              (private_key_bytes
                 (Fixture.decrypt
                    (request_key_handle_cipher
                       Fixture.mismatched_request))))
           (Fixture.hash
              (buffer_to_sign
                 (mkParams
                    (request_challenge_param Fixture.mismatched_request)
                    (request_application_param Fixture.mismatched_request)
                    (request_key_handle_size Fixture.mismatched_request))
                 1 1))
      ++ sw_bytes SW_NO_ERROR /\
    status_word response = sw_bytes SW_NO_ERROR /\
    status_word response <> sw_bytes SW_WRONG_DATA.
Proof.
  assert (H1 : nth_error (payload Fixture.mismatched_request) 2
               = Some U2F_AUTH_ENFORCE) by run.
  assert (H2 : complete_request Fixture.mismatched_request) by run.
  assert (H3 : key_handle_fits
                 (Fixture.decrypt
                    (request_key_handle_cipher
                       Fixture.mismatched_request))) by run.
  assert (H4 : bound_application_param
                 (Fixture.decrypt
                    (request_key_handle_cipher
                       Fixture.mismatched_request))
               <> request_application_param Fixture.mismatched_request)
    by run.
  split; [tauto |].
  exact (enforce_signs_on_mismatch Fixture.key Fixture.decrypt
           Fixture.hash Fixture.bytes_to_key Fixture.sign
           Fixture.mismatched_request H1 H2 H3 H4).
Defined.

(** C2, as stated, fails: the counter of an enforce response is 1, its
    big-endian encoding is [00 00 00 01], and the response and the
    signed buffer both carry [01 00 00 00]. *)
Lemma counter_not_big_endian :
  Fixture.handler Fixture.enforce_request
  = Done (Some Fixture.enforce_response) /\
  spec_counter_be 1 = [0; 0; 0; 1] /\
  response_counter_field Fixture.enforce_response = [1; 0; 0; 0] /\
  response_counter_field Fixture.enforce_response <> spec_counter_be 1 /\
  signed_counter_field
    (buffer_to_sign
       (mkParams (request_challenge_param Fixture.enforce_request)
          (request_application_param Fixture.enforce_request)
          (request_key_handle_size Fixture.enforce_request)) 1 1)
  <> spec_counter_be 1 /\
  be32_value (response_counter_field Fixture.enforce_response) <> 1.
Proof. run. Qed.

(** The counter bytes of a first enforce response. *)
Lemma counter_fields_little_endian_witness :
  Fixture.enforce Fixture.enforce_request
  = Done (Some Fixture.enforce_response) /\
  response_counter_field Fixture.enforce_response = counter_buffer 1 /\
  le32_value (response_counter_field Fixture.enforce_response) = 1 /\
  signed_counter_field
    (buffer_to_sign
       (mkParams (request_challenge_param Fixture.enforce_request)
          (request_application_param Fixture.enforce_request)
          (request_key_handle_size Fixture.enforce_request)) 1 1)
  = counter_buffer 1.
Proof.
  assert (H : Fixture.enforce Fixture.enforce_request
              = Done (Some Fixture.enforce_response)) by run.
  split; [exact H |].
  destruct (counter_fields_little_endian Fixture.key Fixture.decrypt
              Fixture.hash Fixture.bytes_to_key Fixture.sign
              Fixture.enforce_request Fixture.enforce_response H)
    as [_ [Hfield [Hvalue [_ [Hsigned _]]]]].
  split; [exact Hfield |]. split; [exact Hvalue | exact Hsigned].
Defined.

(** The layout of a first enforce response. *)
Lemma enforce_response_layout_witness :
  (nth_error (payload Fixture.enforce_request) 2 = Some U2F_AUTH_ENFORCE /\
   complete_request Fixture.enforce_request /\
   key_handle_fits
     (Fixture.decrypt (request_key_handle_cipher Fixture.enforce_request))) /\
  Fixture.handler Fixture.enforce_request
  = Done (Some (mkMessage (cid Fixture.enforce_request) CMD_MSG
       ([1] ++ [1; 0; 0; 0]
        ++ Fixture.sign
             (Fixture.bytes_to_key
                (private_key_bytes
                   (Fixture.decrypt
                      (request_key_handle_cipher Fixture.enforce_request))))
             (Fixture.hash
                (request_application_param Fixture.enforce_request
                 ++ [1] ++ [1; 0; 0; 0]
                 ++ request_challenge_param Fixture.enforce_request))
        ++ [0x90; 0x00]))).
Proof.
  assert (H1 : nth_error (payload Fixture.enforce_request) 2
               = Some U2F_AUTH_ENFORCE) by run.
  assert (H2 : complete_request Fixture.enforce_request) by run.
  assert (H3 : key_handle_fits
                 (Fixture.decrypt
                    (request_key_handle_cipher Fixture.enforce_request)))
    by run.
  split; [tauto |].
  exact (proj1 (enforce_response_layout Fixture.key Fixture.decrypt
                  Fixture.hash Fixture.bytes_to_key Fixture.sign
                  Fixture.enforce_request H1 H2 H3)).
Defined.

(** A check-only request with the key handle of its application. *)
Lemma check_only_status_witness :
  (nth_error (payload Fixture.check_request) 2 = Some U2F_AUTH_CHECK /\
   complete_request Fixture.check_request /\
   key_handle_fits
     (Fixture.decrypt (request_key_handle_cipher Fixture.check_request)) /\
   bound_application_param
     (Fixture.decrypt (request_key_handle_cipher Fixture.check_request))
   = request_application_param Fixture.check_request) /\
  Fixture.handler Fixture.check_request
  = Done (Some (mkMessage (cid Fixture.check_request) CMD_MSG
       (sw_bytes SW_CONDITIONS_NOT_SATISFIED))).
Proof.
  assert (H1 : nth_error (payload Fixture.check_request) 2
               = Some U2F_AUTH_CHECK) by run.
  assert (H2 : complete_request Fixture.check_request) by run.
  assert (H3 : key_handle_fits
                 (Fixture.decrypt
                    (request_key_handle_cipher Fixture.check_request)))
    by run.
  assert (H4 : bound_application_param
                 (Fixture.decrypt
                    (request_key_handle_cipher Fixture.check_request))
               = request_application_param Fixture.check_request) by run.
  split; [tauto |].
  exact (proj1 (check_only_status Fixture.key Fixture.decrypt
                  Fixture.hash Fixture.bytes_to_key Fixture.sign
                  Fixture.check_request H1 H2 H3) H4).
Defined.

(** C5, as stated, fails: the don't-enforce request gets no response
    message, while the enforce path answers the same request, and the
    handler answers the request that differs from it in [P1] only. *)
Lemma no_enforce_is_not_enforce :
  nth_error (payload Fixture.no_enforce_request) 2
  = Some U2F_AUTH_NO_ENFORCE /\
  Fixture.handler Fixture.no_enforce_request = Done None /\
  Fixture.enforce Fixture.no_enforce_request
  = Done (Some Fixture.enforce_response) /\
  Fixture.handler Fixture.enforce_request
  = Done (Some Fixture.enforce_response) /\
  Fixture.handler Fixture.no_enforce_request
  <> Fixture.handler Fixture.enforce_request.
Proof. run. Qed.

(** A don't-enforce request. *)
Lemma no_enforce_returns_null_witness :
  nth_error (payload Fixture.no_enforce_request) 2
  = Some U2F_AUTH_NO_ENFORCE /\
  Fixture.handler Fixture.no_enforce_request = Done None.
Proof.
  assert (H : nth_error (payload Fixture.no_enforce_request) 2
              = Some U2F_AUTH_NO_ENFORCE) by run.
  split; [exact H |].
  exact (proj1 (no_enforce_returns_null Fixture.key Fixture.decrypt
                  Fixture.hash Fixture.bytes_to_key Fixture.sign
                  Fixture.no_enforce_request H)).
Defined.

(** C6, as stated, fails: an enforce response and the enforce response
    after it both carry the counter 1, whichever way the four bytes are
    read. *)
Lemma counter_not_increasing :
  Fixture.handler Fixture.enforce_request
  = Done (Some Fixture.enforce_response) /\
  Fixture.handler Fixture.later_request
  = Done (Some Fixture.later_response) /\
  Fixture.enforce_response <> Fixture.later_response /\
  le32_value (response_counter_field Fixture.enforce_response) = 1 /\
  le32_value (response_counter_field Fixture.later_response) = 1 /\
  ~ le32_value (response_counter_field Fixture.enforce_response)
    < le32_value (response_counter_field Fixture.later_response) /\
  ~ be32_value (response_counter_field Fixture.enforce_response)
    < be32_value (response_counter_field Fixture.later_response).
Proof. run. Qed.

(** Two enforce requests in a row. *)
Lemma counter_is_constant_witness :
  (Fixture.enforce Fixture.enforce_request
   = Done (Some Fixture.enforce_response) /\
   Fixture.enforce Fixture.later_request
   = Done (Some Fixture.later_response)) /\
  response_counter_field Fixture.enforce_response = [1; 0; 0; 0] /\
  response_counter_field Fixture.later_response = [1; 0; 0; 0] /\
  le32_value (response_counter_field Fixture.later_response)
  = le32_value (response_counter_field Fixture.enforce_response) /\
  ~ le32_value (response_counter_field Fixture.enforce_response)
    < le32_value (response_counter_field Fixture.later_response).
Proof.
  assert (H1 : Fixture.enforce Fixture.enforce_request
               = Done (Some Fixture.enforce_response)) by run.
  assert (H2 : Fixture.enforce Fixture.later_request
               = Done (Some Fixture.later_response)) by run.
  split; [tauto |].
  exact (counter_is_constant Fixture.key Fixture.decrypt Fixture.hash
           Fixture.bytes_to_key Fixture.sign
           Fixture.enforce_request Fixture.later_request
           Fixture.enforce_response Fixture.later_response H1 H2).
Defined.

(** The [INIT] response to the nonce [00 .. 07] on the channel
    [01 02 03 04]. *)
Lemma init_response_trailer_witness :
  (Z.of_nat (length [0; 1; 2; 3; 4; 5; 6; 7]) = U2FHID_INIT_BCNT /\
   length [0x01; 0x02; 0x03; 0x04] = 4%nat) /\
  firstn 8 (init_response_payload [0; 1; 2; 3; 4; 5; 6; 7]
              [0x01; 0x02; 0x03; 0x04])
  = [0; 1; 2; 3; 4; 5; 6; 7] /\
  firstn 4 (skipn 8 (init_response_payload [0; 1; 2; 3; 4; 5; 6; 7]
                       [0x01; 0x02; 0x03; 0x04]))
  = [0x01; 0x02; 0x03; 0x04] /\
  skipn 12 (init_response_payload [0; 1; 2; 3; 4; 5; 6; 7]
              [0x01; 0x02; 0x03; 0x04])
  = [2; 0; 1; 0; 0] /\
  length (init_response_payload [0; 1; 2; 3; 4; 5; 6; 7]
            [0x01; 0x02; 0x03; 0x04])
  = 17%nat.
Proof.
  assert (H1 : Z.of_nat (length [0; 1; 2; 3; 4; 5; 6; 7])
               = U2FHID_INIT_BCNT) by run.
  assert (H2 : length [0x01; 0x02; 0x03; 0x04] = 4%nat) by run.
  split; [tauto |].
  exact (init_response_trailer [0; 1; 2; 3; 4; 5; 6; 7]
           [0x01; 0x02; 0x03; 0x04] H1 H2).
Defined.

(** A request with [P1 = 0x09]. *)
Lemma unknown_p1_returns_null_witness :
  (nth_error (payload Fixture.unknown_request) 2 = Some 9 /\
   9 <> 0x03 /\ 9 <> 0x07 /\ 9 <> 0x08) /\
  Fixture.handler Fixture.unknown_request = Done None.
Proof.
  assert (H : nth_error (payload Fixture.unknown_request) 2 = Some 9)
    by run.
  assert (H3 : 9 <> 0x03) by lia.
  assert (H7 : 9 <> 0x07) by lia.
  assert (H8 : 9 <> 0x08) by lia.
  split; [tauto |].
  exact (unknown_p1_returns_null Fixture.key Fixture.decrypt Fixture.hash
           Fixture.bytes_to_key Fixture.sign
           Fixture.unknown_request 9 H H3 H7 H8).
Defined.

(** A plain key handle of 48 bytes, and one of 4 bytes. *)
Lemma privkey_size_guard_witness :
  (complete_request Fixture.enforce_request /\
   key_handle_fits
     (Fixture.decrypt (request_key_handle_cipher Fixture.enforce_request)) /\
   size_sub 48 U2F_APP_PARAM_SIZE = 16 /\
   Fixture.enforce Fixture.enforce_request
   = Done (Some Fixture.enforce_response)) /\
  (complete_request (Fixture.short_request 3) /\
   length
     (Fixture.decrypt
        (request_key_handle_cipher (Fixture.short_request 3)))
   = 4%nat /\
   size_sub 4 U2F_APP_PARAM_SIZE = 4 - 32 + SIZE_MODULUS /\
   Fixture.check (Fixture.short_request 3) = Fault OutOfBounds /\
   Fixture.enforce (Fixture.short_request 3) = Fault OutOfBounds).
Proof.
  assert (H1 : complete_request Fixture.enforce_request) by run.
  assert (H2 : key_handle_fits
                 (Fixture.decrypt
                    (request_key_handle_cipher Fixture.enforce_request)))
    by run.
  assert (H3 : complete_request (Fixture.short_request 3)) by run.
  assert (H4 : Z.of_nat
                 (length
                    (Fixture.decrypt
                       (request_key_handle_cipher
                          (Fixture.short_request 3))))
               < U2F_APP_PARAM_SIZE) by run.
  split.
  - destruct (proj1 (privkey_size_guard Fixture.key Fixture.decrypt
                       Fixture.hash Fixture.bytes_to_key Fixture.sign
                       Fixture.enforce_request H1) H2)
      as [Hsub _].
    split; [exact H1 |]. split; [exact H2 |]. split; [exact Hsub | run].
  - destruct (proj2 (privkey_size_guard Fixture.key Fixture.decrypt
                       Fixture.hash Fixture.bytes_to_key Fixture.sign
                       (Fixture.short_request 3) H3) H4)
      as [Hsub [_ [_ [_ [Hcheck Henforce]]]]].
    split; [exact H3 |]. split; [run |].
    split; [exact Hsub |]. split; [exact Hcheck | exact Henforce].
Defined.

(** The channel and command of a check response and of an enforce
    response. *)
Lemma response_channel_and_command_witness :
  (Fixture.check Fixture.check_request
   = Done (Some Fixture.check_response) /\
   Fixture.enforce Fixture.enforce_request
   = Done (Some Fixture.enforce_response)) /\
  (cid Fixture.check_response = cid Fixture.check_request /\
   cmd Fixture.check_response = CMD_MSG) /\
  (cid Fixture.enforce_response = cid Fixture.enforce_request /\
   cmd Fixture.enforce_response = CMD_MSG).
Proof.
  assert (H1 : Fixture.check Fixture.check_request
               = Done (Some Fixture.check_response)) by run.
  assert (H2 : Fixture.enforce Fixture.enforce_request
               = Done (Some Fixture.enforce_response)) by run.
  split; [tauto |]. split.
  - exact (response_channel_and_command Fixture.key Fixture.decrypt
             Fixture.hash Fixture.bytes_to_key Fixture.sign
             Fixture.check_request Fixture.check_response
             (or_introl H1)).
  - exact (response_channel_and_command Fixture.key Fixture.decrypt
             Fixture.hash Fixture.bytes_to_key Fixture.sign
             Fixture.enforce_request Fixture.enforce_response
             (or_intror H2)).
Defined.

(** * Further properties of the handler *)

(** ** Requests built from their fields *)

Lemma skipn_exact {A : Type} (n : nat) (a b : list A) :
  length a = n -> skipn n (a ++ b) = b.
Proof.
  intros <-. now rewrite skipn_app, skipn_all, Nat.sub_diag.
Qed.

Lemma firstn_exact {A : Type} (n : nat) (a b : list A) :
  length a = n -> firstn n (a ++ b) = a.
Proof.
  intros <-. now rewrite firstn_app, firstn_all, Nat.sub_diag, app_nil_r.
Qed.

Lemma app_same_length {A : Type} (a a' b b' : list A) :
  length a = length a' -> a ++ b = a' ++ b' -> a = a' /\ b = b'.
Proof.
  revert a'. induction a as [| x a IH]; intros [| x' a']; cbn;
    try discriminate.
  - intros _ H. now split.
  - intros [= Hlen] [= -> Happ]. destruct (IH a' Hlen Happ) as [-> ->].
    now split.
Qed.

Section Built.

Variables (c : Z) (header cha_param app_param cipher trailer : list Z).
Hypothesis Hheader : length header = 7%nat.
Hypothesis Hcha : length cha_param = 32%nat.
Hypothesis Happ : length app_param = 32%nat.

Local Abbreviation built := (build_request c header cha_param app_param cipher trailer).

Lemma built_skip_header :
  skipn 7 (payload built)
  = cha_param ++ app_param ++ [Z.of_nat (length cipher)] ++ cipher ++ trailer.
Proof. unfold build_request. cbn [payload]. now apply skipn_exact. Qed.

Lemma built_challenge_param : request_challenge_param built = cha_param.
Proof.
  unfold request_challenge_param. rewrite built_skip_header.
  now apply firstn_exact.
Qed.

Lemma built_skip_challenge :
  skipn 39 (payload built)
  = app_param ++ [Z.of_nat (length cipher)] ++ cipher ++ trailer.
Proof.
  change 39%nat with (32 + 7)%nat.
  rewrite <- skipn_skipn, built_skip_header. now apply skipn_exact.
Qed.

Lemma built_application_param : request_application_param built = app_param.
Proof.
  unfold request_application_param. rewrite built_skip_challenge.
  now apply firstn_exact.
Qed.

Lemma built_skip_application :
  skipn 71 (payload built)
  = [Z.of_nat (length cipher)] ++ cipher ++ trailer.
Proof.
  change 71%nat with (32 + 39)%nat.
  rewrite <- skipn_skipn, built_skip_challenge. now apply skipn_exact.
Qed.

Lemma built_key_handle_size :
  request_key_handle_size built = Z.of_nat (length cipher).
Proof.
  unfold request_key_handle_size.
  change 71%nat with (71 + 0)%nat at 1.
  now rewrite <- nth_skipn, built_skip_application.
Qed.

Lemma built_key_handle_cipher : request_key_handle_cipher built = cipher.
Proof.
  unfold request_key_handle_cipher. rewrite built_key_handle_size.
  change 72%nat with (1 + 71)%nat.
  rewrite <- skipn_skipn, built_skip_application. cbn [app skipn].
  rewrite Nat2Z.id. now apply firstn_exact.
Qed.

Lemma built_complete : complete_request built.
Proof.
  unfold complete_request. rewrite built_key_handle_size.
  unfold build_request. cbn [payload].
  rewrite !length_app, Hheader, Hcha, Happ. cbn [length]. lia.
Qed.

End Built.

(** ** The status word *)

Lemma low_16_bits (status : Z) :
  (status mod 65536) / 256 mod 256 = status / 256 mod 256 /\
  (status mod 65536) mod 256 = status mod 256.
Proof.
  change 65536 with (256 * 256).
  rewrite Z.rem_mul_r by lia.
  pose proof (Z.mod_pos_bound status 256 ltac:(lia)) as Hr.
  pose proof (Z.mod_pos_bound (status / 256) 256 ltac:(lia)) as Hq.
  split.
  - rewrite Z.mul_comm, Z.div_add by lia.
    rewrite (Z.div_small (status mod 256)) by lia.
    cbn [Z.add]. now rewrite Z.mod_mod by lia.
  - rewrite Z.mul_comm, Z.mod_add by lia. now rewrite Z.mod_mod by lia.
Qed.

Lemma sw_bytes_of_any (m : message) (status : Z) :
  payload (authenticate_response_sw m status)
  = payload m ++ [status / 256 mod 256; status mod 256].
Proof.
  unfold authenticate_response_sw, message_add_data, u8. cbn [payload].
  change 255 with (Z.ones 8). change 0xFF with (Z.ones 8).
  rewrite !Z.land_ones, Z.shiftr_div_pow2 by lia. reflexivity.
Qed.

(** Written by [authenticate_response_sw], a status word of 16 bits is
    read back from the last two bytes of the message, most significant
    byte first; the bytes before it, the channel and the command are
    left as they were. *)
Theorem status_word_round_trip (m : message) (status : Z) :
  0 <= status < 65536 ->
  be16_value (status_word (authenticate_response_sw m status)) = status /\
  firstn (length (payload m)) (payload (authenticate_response_sw m status))
  = payload m /\
  length (payload (authenticate_response_sw m status))
  = (length (payload m) + 2)%nat /\
  cid (authenticate_response_sw m status) = cid m /\
  cmd (authenticate_response_sw m status) = cmd m.
Proof.
  intros Hstatus.
  pose proof (sw_bytes_of_any m status) as Hpayload.
  assert (Hsw : status_word (authenticate_response_sw m status)
                = [status / 256 mod 256; status mod 256]).
  { unfold status_word. rewrite Hpayload, length_app. cbn [length].
    replace (length (payload m) + 2 - 2)%nat with (length (payload m))
      by lia.
    now apply skipn_exact. }
  rewrite Hsw, Hpayload. unfold be16_value. cbn [nth].
  rewrite (Z.mod_small (status / 256)).
  - rewrite firstn_exact, length_app by reflexivity.
    repeat split. pose proof (Z.div_mod status 256 ltac:(lia)). lia.
  - split; [apply Z.div_pos; lia | apply Z.div_lt_upper_bound; lia].
Qed.

(** Of a status wider than 16 bits [authenticate_response_sw] writes
    the low 16 bits only, and what it writes is two bytes. *)
Theorem status_word_truncates (m : message) (status : Z) :
  authenticate_response_sw m status
  = authenticate_response_sw m (status mod 65536) /\
  Forall is_byte (status_word (authenticate_response_sw m status)) /\
  length (status_word (authenticate_response_sw m status)) = 2%nat.
Proof.
  assert (Hsw : status_word (authenticate_response_sw m status)
                = [status / 256 mod 256; status mod 256]).
  { unfold status_word. rewrite sw_bytes_of_any, length_app. cbn [length].
    replace (length (payload m) + 2 - 2)%nat with (length (payload m))
      by lia.
    now apply skipn_exact. }
  split; [| split].
  - pose proof (sw_bytes_of_any m status) as H1.
    pose proof (sw_bytes_of_any m (status mod 65536)) as H2.
    destruct (low_16_bits status) as [Hhigh Hlow].
    rewrite Hhigh, Hlow, <- H1 in H2.
    unfold authenticate_response_sw, message_add_data in *.
    cbn [payload] in H2. now rewrite H2.
  - rewrite Hsw. unfold is_byte.
    repeat constructor; apply Z.mod_pos_bound; lia.
  - now rewrite Hsw.
Qed.

(** ** The counter bytes and the signed buffer *)

Lemma byte_of_low_bits (counter k : Z) :
  0 <= k -> k + 8 <= 32 ->
  Z.land (Z.shiftr (counter mod 2 ^ 32) k) 0xFF
  = Z.land (Z.shiftr counter k) 0xFF.
Proof.
  intros Hk Hk8. change 0xFF with (Z.ones 8).
  apply Z.bits_inj'. intros n Hn.
  rewrite !Z.land_spec, !Z.shiftr_spec by lia.
  destruct (Z.ltb_spec n 8) as [Hlow | Hhigh].
  - now rewrite Z.mod_pow2_bits_low by lia.
  - rewrite Z.ones_spec_high by lia. now rewrite !andb_false_r.
Qed.

Lemma counter_buffer_mod (counter : Z) :
  counter_buffer (counter mod 2 ^ 32) = counter_buffer counter.
Proof.
  unfold counter_buffer.
  rewrite <- (Z.shiftr_0_r (counter mod 2 ^ 32)) at 1.
  rewrite <- (Z.shiftr_0_r counter) at 4.
  now rewrite !byte_of_low_bits by lia.
Qed.

Lemma u8_mod (z : Z) : u8 z = z mod 256.
Proof.
  unfold u8. change 255 with (Z.ones 8). now rewrite Z.land_ones by lia.
Qed.

Lemma counter_buffer_same (counter counter' : Z) :
  counter_buffer counter = counter_buffer counter'
  <-> counter mod 2 ^ 32 = counter' mod 2 ^ 32.
Proof.
  split; intros Heq.
  - rewrite <- (le32_counter_buffer (counter mod 2 ^ 32))
      by (apply Z.mod_pos_bound; lia).
    rewrite <- (le32_counter_buffer (counter' mod 2 ^ 32))
      by (apply Z.mod_pos_bound; lia).
    now rewrite !counter_buffer_mod, Heq.
  - now rewrite <- (counter_buffer_mod counter),
      <- (counter_buffer_mod counter'), Heq.
Qed.

Lemma counter_buffer_is_bytes (counter : Z) :
  Forall is_byte (counter_buffer counter).
Proof.
  rewrite counter_buffer_bytes. unfold is_byte.
  repeat constructor; apply Z.mod_pos_bound; lia.
Qed.

(** Two counters are written as the same four bytes exactly when their
    low 32 bits agree; what is written is always four bytes. *)
Theorem counter_buffer_low_32_bits (counter counter' : Z) :
  (counter_buffer counter = counter_buffer counter'
   <-> counter mod 2 ^ 32 = counter' mod 2 ^ 32) /\
  Forall is_byte (counter_buffer counter) /\
  length (counter_buffer counter) = 4%nat.
Proof.
  split; [apply counter_buffer_same |].
  split; [apply counter_buffer_is_bytes | reflexivity].
Qed.

(** The buffer that is signed determines what went into it: two signed
    buffers with application parameters of 32 bytes are equal only if
    the application parameters, the low 8 bits of the user presences,
    the low 32 bits of the counters and the challenge parameters
    are. *)
Theorem buffer_to_sign_injective (p p' : authentification_params)
    (presence presence' counter counter' : Z) :
  length (application_param p) = 32%nat ->
  length (application_param p') = 32%nat ->
  buffer_to_sign p presence counter = buffer_to_sign p' presence' counter' ->
  application_param p = application_param p' /\
  presence mod 256 = presence' mod 256 /\
  counter mod 2 ^ 32 = counter' mod 2 ^ 32 /\
  challenge_param p = challenge_param p'.
Proof.
  intros Hlen Hlen' Heq. unfold buffer_to_sign in Heq.
  apply app_same_length in Heq as [Happ Heq]; [| congruence].
  apply (app_same_length [u8 presence] [u8 presence']) in Heq
    as [[= Hpresence] Heq]; [| reflexivity].
  apply app_same_length in Heq as [Hcounter Hcha]; [| reflexivity].
  rewrite !u8_mod in Hpresence.
  repeat split; try assumption.
  now apply counter_buffer_same.
Qed.

Lemma key_handle_cipher_truncated (request : message)
    (params : authentification_params) :
  0 < key_handle_size params ->
  Z.of_nat (length (payload request)) < 72 + key_handle_size params ->
  authenticate_get_key_handle_cipher request params = Fault Indeterminate.
Proof.
  intros Hpos Hlen. unfold authenticate_get_key_handle_cipher, message_read.
  change (Z.to_nat (U2F_APDU_HEADER_SIZE + U2F_APP_PARAM_SIZE
                    + U2F_CHA_PARAM_SIZE + 1)) with 72%nat.
  rewrite length_firstn, length_skipn.
  destruct (Z.ltb_spec
              (Z.of_nat (Init.Nat.min (Z.to_nat (key_handle_size params))
                           (length (payload request) - 72)))
              (key_handle_size params)); [reflexivity | lia].
Qed.

Lemma read_bytes_done_bounds (buf bytes : list Z) (off n : Z) :
  read_bytes buf off n = Done bytes ->
  0 <= off /\ 0 <= n /\ off + n <= Z.of_nat (length buf).
Proof.
  unfold read_bytes.
  destruct (Z.leb_spec 0 off); [| discriminate].
  destruct (Z.leb_spec 0 n); [| discriminate].
  destruct (Z.leb_spec (off + n) (Z.of_nat (length buf)));
    [| discriminate].
  intros _. now repeat split.
Qed.

(** ** The paths of the handler, step by step *)

Section Coverage.

Variable EC_KEY : Type.
Variable crypto_aes_decrypt : list Z -> list Z.
Variable crypto_hash : list Z -> list Z.
Variable crypto_ec_bytes_to_key : list Z -> EC_KEY.
Variable crypto_ec_sign_with_key : EC_KEY -> list Z -> list Z.

Local Abbreviation check := (raw_authenticate_check crypto_aes_decrypt).
Local Abbreviation enforce :=
  (raw_authenticate_enforce EC_KEY crypto_aes_decrypt crypto_hash
     crypto_ec_bytes_to_key crypto_ec_sign_with_key).
Local Abbreviation handler :=
  (raw_authenticate_handler EC_KEY crypto_aes_decrypt crypto_hash
     crypto_ec_bytes_to_key crypto_ec_sign_with_key).
Local Abbreviation decrypt_key_handle :=
  (authenticate_decrypt_key_handle_cipher crypto_aes_decrypt).
Local Abbreviation plain request :=
  (crypto_aes_decrypt (request_key_handle_cipher request)).
Local Abbreviation params_of request :=
  (mkParams (request_challenge_param request)
     (request_application_param request)
     (request_key_handle_size request)).

(** Neither path returns [NULL]. *)
Lemma check_not_null (request : message) : check request <> Done None.
Proof.
  unfold raw_authenticate_check.
  destruct (read_params request) as [p | f]; [| discriminate].
  cbn [bind].
  destruct (authenticate_get_key_handle_cipher request p)
    as [[cipher size] | f]; [| discriminate].
  cbn [bind].
  destruct (authenticate_decrypt_key_handle_cipher _ cipher size)
    as [[key_handle size'] | f]; [| discriminate].
  cbn [bind].
  destruct (read_bytes key_handle _ _) as [bound | f]; discriminate.
Qed.

Lemma enforce_not_null (request : message) : enforce request <> Done None.
Proof.
  unfold raw_authenticate_enforce.
  destruct (read_params request) as [p | f]; [| discriminate].
  cbn [bind].
  destruct (authenticate_get_key_handle_cipher request p)
    as [[cipher size] | f]; [| discriminate].
  cbn [bind].
  destruct (authenticate_decrypt_key_handle_cipher _ cipher _)
    as [[key_handle size'] | f]; [| discriminate].
  cbn [bind].
  destruct (authenticate_get_pubkey_from_key_handle _ _ key_handle size')
    as [key | f]; discriminate.
Qed.



Lemma handler_done (request response : message) :
  handler request = Done (Some response) ->
  check request = Done (Some response) \/
  enforce request = Done (Some response).
Proof.
  unfold raw_authenticate_handler.
  destruct (frame_header_p1 (payload request)) as [p1 | f];
    [| discriminate].
  cbn [bind]. unfold raw_authenticate_no_enforce.
  destruct (p1 =? U2F_AUTH_CHECK); [now left |].
  destruct (p1 =? U2F_AUTH_ENFORCE); [now right |].
  destruct (p1 =? U2F_AUTH_NO_ENFORCE); discriminate.
Qed.

(** ** Reading the request *)

(** From a request built from its fields the handler reads these
    fields back: the two parameters and the length byte into
    [params], the ciphered key handle, without the bytes that follow
    it, into the buffer it decrypts. *)
Theorem request_fields_round_trip
    (c : Z) (header cha_param app_param cipher trailer : list Z) :
  length header = 7%nat ->
  length cha_param = 32%nat ->
  length app_param = 32%nat ->
  Z.of_nat (length cipher) < 256 ->
  let request :=
    build_request c header cha_param app_param cipher trailer in
  let params :=
    mkParams cha_param app_param (Z.of_nat (length cipher)) in
  read_params request = Done params /\
  authenticate_get_key_handle_cipher request params
  = Done (cipher, Z.of_nat (length cipher)) /\
  decrypt_key_handle cipher (Z.of_nat (length cipher))
  = Done (crypto_aes_decrypt cipher,
          Z.of_nat (length (crypto_aes_decrypt cipher))).
Proof.
  intros Hheader Hcha Happ _. cbv zeta.
  pose proof (built_complete c header cha_param app_param cipher trailer
                Hheader Hcha Happ) as Hreq.
  pose proof (get_key_handle_cipher_complete _ cha_param app_param Hreq)
    as Hget.
  pose proof (decrypt_complete crypto_aes_decrypt _ Hreq) as Hdec.
  rewrite read_params_complete by now apply complete_request_length.
  rewrite built_challenge_param, built_application_param,
    built_key_handle_size, built_key_handle_cipher in * by assumption.
  now repeat split.
Qed.

(** [authenticate_get_key_handle_cipher] returns a buffer only when the
    request holds as many bytes of key handle as [key_handle_size]
    announces; when it holds fewer, part of the buffer is never
    written. *)
Theorem key_handle_cipher_needs_bytes (request : message)
    (params : authentification_params) :
  0 <= key_handle_size params ->
  (72 + key_handle_size params <= Z.of_nat (length (payload request)) ->
   authenticate_get_key_handle_cipher request params
   = Done (firstn (Z.to_nat (key_handle_size params))
             (skipn 72 (payload request)),
           key_handle_size params)) /\
  (0 < key_handle_size params ->
   Z.of_nat (length (payload request)) < 72 + key_handle_size params ->
   authenticate_get_key_handle_cipher request params
   = Fault Indeterminate).
Proof.
  intros Hsize. unfold authenticate_get_key_handle_cipher, message_read.
  change (Z.to_nat (U2F_APDU_HEADER_SIZE + U2F_APP_PARAM_SIZE
                    + U2F_CHA_PARAM_SIZE + 1)) with 72%nat.
  rewrite length_firstn, length_skipn. split.
  - intros Hlen.
    destruct (Z.ltb_spec
                (Z.of_nat (Init.Nat.min (Z.to_nat (key_handle_size params))
                             (length (payload request) - 72)))
                (key_handle_size params)); [lia | reflexivity].
  - intros Hpos Hlen.
    destruct (Z.ltb_spec
                (Z.of_nat (Init.Nat.min (Z.to_nat (key_handle_size params))
                             (length (payload request) - 72)))
                (key_handle_size params)); [reflexivity | lia].
Qed.

(** The buffer and the size [authenticate_get_key_handle_cipher]
    returns agree, so that the decryption that follows reads the whole
    buffer and nothing else, and the size it returns is the length of
    the plain key handle. *)
Theorem key_handle_cipher_size_agrees (request : message)
    (params : authentification_params) (cipher : list Z) (size : Z) :
  0 <= key_handle_size params ->
  authenticate_get_key_handle_cipher request params = Done (cipher, size) ->
  size = key_handle_size params /\
  Z.of_nat (length cipher) = size /\
  decrypt_key_handle cipher size
  = Done (crypto_aes_decrypt cipher,
          Z.of_nat (length (crypto_aes_decrypt cipher))).
Proof.
  intros Hsize. unfold authenticate_get_key_handle_cipher. cbv zeta.
  set (buffer := message_read request _ (key_handle_size params)).
  assert (Hle : Z.of_nat (length buffer) <= key_handle_size params).
  { unfold buffer, message_read. rewrite length_firstn. lia. }
  destruct (Z.ltb_spec (Z.of_nat (length buffer)) (key_handle_size params))
    as [Hlt | Hge]; [discriminate |].
  intros [= <- <-].
  split; [reflexivity |]. split; [lia |].
  unfold authenticate_decrypt_key_handle_cipher.
  rewrite read_bytes_inside by lia. cbn [bind Z.to_nat skipn].
  rewrite firstn_all2 by lia. reflexivity.
Qed.

(** A request that holds fewer bytes than its fixed part and the key
    handle it announces is answered by neither path: both go on with
    bytes that were never written. *)
Theorem truncated_request_indeterminate (request : message) :
  0 <= request_key_handle_size request ->
  Z.of_nat (length (payload request))
  < 72 + request_key_handle_size request ->
  check request = Fault Indeterminate /\
  enforce request = Fault Indeterminate.
Proof.
  intros Hsize Hlen.
  unfold raw_authenticate_check, raw_authenticate_enforce.
  destruct (Z_lt_le_dec (Z.of_nat (length (payload request))) 72)
    as [Hshort | Hfixed].
  - rewrite read_params_short by exact Hshort. split; reflexivity.
  - rewrite read_params_complete by exact Hfixed. cbn [bind].
    assert (Hpos : 0 < request_key_handle_size request) by lia.
    rewrite (key_handle_cipher_truncated request
               (params_of request) Hpos Hlen).
    split; reflexivity.
Qed.

(** ** What the paths depend on *)



(** The private key bytes the enforce path takes from a plain key handle
    and the application parameter the check path compares are two
    adjacent parts of it: together they are the whole key handle. *)
Theorem key_handle_reads_partition (key_handle : list Z) :
  key_handle_fits key_handle ->
  let privkey_size :=
    size_sub (Z.of_nat (length key_handle)) U2F_APP_PARAM_SIZE in
  exists privkey bound,
    read_bytes key_handle 0 privkey_size = Done privkey /\
    read_bytes key_handle privkey_size U2F_APP_PARAM_SIZE = Done bound /\
    privkey ++ bound = key_handle /\
    Z.of_nat (length privkey) = privkey_size /\
    Z.of_nat (length bound) = U2F_APP_PARAM_SIZE.
Proof.
  intros Hfit. cbv zeta.
  exists (private_key_bytes key_handle), (bound_application_param key_handle).
  rewrite read_private_key_bytes, read_bound_application_param
    by exact Hfit.
  rewrite size_sub_exact by exact Hfit.
  rewrite (bound_application_param_length _ Hfit).
  unfold private_key_bytes, bound_application_param.
  rewrite firstn_skipn, length_firstn.
  unfold key_handle_fits, U2F_APP_PARAM_SIZE in *.
  repeat split; lia.
Qed.

(** ** What the handler returns *)

(** The handler returns no message exactly when [P1] is neither
    check-only nor enforce, and a message it returns is the one of the
    path [P1] selects. *)
Theorem handler_response_origin (request : message) (p1 : Z) :
  nth_error (payload request) 2 = Some p1 ->
  (handler request = Done None
   <-> p1 <> U2F_AUTH_CHECK /\ p1 <> U2F_AUTH_ENFORCE) /\
  (forall response,
     handler request = Done (Some response)
     <-> (p1 = U2F_AUTH_CHECK /\ check request = Done (Some response)) \/
         (p1 = U2F_AUTH_ENFORCE /\ enforce request = Done (Some response))).
Proof.
  intros Hp1.
  rewrite (handler_p1 EC_KEY crypto_aes_decrypt crypto_hash
             crypto_ec_bytes_to_key crypto_ec_sign_with_key
             request p1 Hp1).
  destruct (Z.eqb_spec p1 U2F_AUTH_CHECK) as [-> | Hcheck].
  - split.
    + split; [intros H; now apply check_not_null in H | intros [H _]].
      now contradiction H.
    + intros response. split; [intros H; left; now split |].
      intros [[_ H] | [H _]]; [exact H | discriminate H].
  - destruct (Z.eqb_spec p1 U2F_AUTH_ENFORCE) as [-> | Henforce].
    + split.
      * split; [intros H; now apply enforce_not_null in H | intros [_ H]].
        now contradiction H.
      * intros response. split; [intros H; right; now split |].
        intros [[H _] | [_ H]]; [discriminate H | exact H].
    + split.
      * split; [intros _; now split | reflexivity].
      * intros response. split; [discriminate |].
        intros [[H _] | [H _]]; contradiction.
Qed.

(** When signatures are made of bytes, so is every message the handler
    returns. *)
Theorem responses_are_bytes (request response : message) :
  (forall key digest,
     Forall is_byte (crypto_ec_sign_with_key key digest)) ->
  handler request = Done (Some response) ->
  Forall is_byte (payload response).
Proof.
  intros Hsign Hrun. apply handler_done in Hrun as [Hrun | Hrun].
  - apply check_done in Hrun as [status [[-> | ->] ->]];
      cbn [payload]; unfold is_byte;
      repeat constructor; vm_compute; discriminate.
  - apply enforce_done in Hrun as [_ [key_bytes ->]]. cbn [payload].
    apply Forall_app; split;
      [| apply Forall_app; split; [| apply Forall_app; split]].
    + repeat constructor; unfold is_byte; lia.
    + apply counter_buffer_is_bytes.
    + apply Hsign.
    + unfold is_byte. repeat constructor; vm_compute; discriminate.
Qed.

(** An enforce response carries its signature between the first five
    bytes and the last two, with nothing before or after it but the
    user presence, the counter and the status word. *)
Theorem enforce_signature_recoverable (request response : message) :
  enforce request = Done (Some response) ->
  let signature :=
    firstn (length (payload response) - 7) (skipn 5 (payload response)) in
  payload response = [1; 1; 0; 0; 0] ++ signature ++ [0x90; 0x00] /\
  exists key_bytes,
    signature
    = crypto_ec_sign_with_key (crypto_ec_bytes_to_key key_bytes)
        (crypto_hash (buffer_to_sign (params_of request) 1 1)).
Proof.
  intros Hrun. apply enforce_done in Hrun as [_ [key_bytes ->]].
  cbv zeta. cbn [payload].
  set (signature := crypto_ec_sign_with_key _ _).
  change ([1] ++ counter_buffer 1 ++ signature ++ sw_bytes SW_NO_ERROR)
    with ([1; 1; 0; 0; 0] ++ signature ++ [0x90; 0x00]).
  rewrite skipn_exact by reflexivity.
  rewrite !length_app. cbn [length].
  replace (5 + (length signature + 2) - 7)%nat with (length signature)
    by lia.
  rewrite firstn_exact by reflexivity.
  split; [reflexivity | now exists key_bytes].
Qed.

(** A request the check path answers, with either status word, is a
    request the enforce path answers as well: the reads of the enforce
    path stay inside what the check path has read. *)
Theorem check_answer_implies_enforce_answer (request response : message) :
  check request = Done (Some response) ->
  exists signed_response,
    enforce request = Done (Some signed_response) /\
    cid signed_response = cid response /\
    status_word signed_response = sw_bytes SW_NO_ERROR.
Proof.
  unfold raw_authenticate_check, raw_authenticate_enforce.
  destruct (read_params request) as [p | f]; [| discriminate].
  cbn [bind].
  destruct (authenticate_get_key_handle_cipher request p)
    as [[cipher size] | f] eqn:Hget; [| discriminate].
  assert (Hsize : size = key_handle_size p).
  { unfold authenticate_get_key_handle_cipher in Hget.
    destruct (_ <? _) in Hget; [discriminate |]. now injection Hget. }
  subst size. cbn [bind].
  unfold authenticate_decrypt_key_handle_cipher.
  destruct (read_bytes cipher 0 (key_handle_size p)) as [read | f];
    [| discriminate].
  cbn [bind]. unfold authenticate_get_pubkey_from_key_handle.
  destruct (read_bytes (crypto_aes_decrypt read) _ U2F_APP_PARAM_SIZE)
    as [bound | f] eqn:Hbound; [| discriminate].
  apply read_bytes_done_bounds in Hbound as [Hoff [_ Hend]].
  rewrite read_bytes_inside by (unfold U2F_APP_PARAM_SIZE in *; lia).
  cbn [bind]. intros Hrun. eexists. split; [reflexivity |].
  split.
  - destruct (negb _) in Hrun; injection Hrun as <-; reflexivity.
  - unfold authenticate_response_sw, authenticate_response_signature,
      authenticate_response_counter, authenticate_response_user_pre,
      message_add_data, message_new_blank.
    cbn [cid cmd payload]. now apply status_word_app.
Qed.

End Coverage.

(** * Further runs on concrete requests *)

(** The status word [6A 80] appended to an empty message. *)
Lemma status_word_round_trip_witness :
  0 <= SW_WRONG_DATA < 65536 /\
  be16_value
    (status_word
       (authenticate_response_sw (message_new_blank 1 CMD_MSG)
          SW_WRONG_DATA))
  = SW_WRONG_DATA.
Proof.
  assert (H : 0 <= SW_WRONG_DATA < 65536) by (unfold SW_WRONG_DATA; lia).
  split; [exact H |].
  exact (proj1 (status_word_round_trip (message_new_blank 1 CMD_MSG)
                  SW_WRONG_DATA H)).
Defined.

(** The user presences 1 and 257, and the counters 1 and [2^32 + 1],
    are signed as the same bytes. *)
Lemma buffer_to_sign_injective_witness :
  (length Fixture.application = 32%nat /\
   buffer_to_sign (mkParams Fixture.challenge Fixture.application 48) 1 1
   = buffer_to_sign (mkParams Fixture.challenge Fixture.application 0) 257
       4294967297) /\
  1 mod 256 = 257 mod 256 /\
  1 mod 2 ^ 32 = 4294967297 mod 2 ^ 32.
Proof.
  assert (H1 : length Fixture.application = 32%nat) by run.
  assert (H2 : buffer_to_sign
                 (mkParams Fixture.challenge Fixture.application 48) 1 1
               = buffer_to_sign
                   (mkParams Fixture.challenge Fixture.application 0) 257
                   4294967297) by run.
  split; [tauto |].
  destruct (buffer_to_sign_injective
              (mkParams Fixture.challenge Fixture.application 48)
              (mkParams Fixture.challenge Fixture.application 0)
              1 257 1 4294967297 H1 H1 H2)
    as [_ [Hpresence [Hcounter _]]].
  split; [exact Hpresence | exact Hcounter].
Defined.

(** A request with two bytes after the key handle. *)
Lemma request_fields_round_trip_witness :
  (length (Fixture.apdu_header 3) = 7%nat /\
   length Fixture.challenge = 32%nat /\
   length Fixture.application = 32%nat /\
   Z.of_nat (length (Fixture.wrap Fixture.application)) < 256) /\
  authenticate_get_key_handle_cipher
    (build_request 1 (Fixture.apdu_header 3) Fixture.challenge
       Fixture.application (Fixture.wrap Fixture.application) [0; 0])
    (mkParams Fixture.challenge Fixture.application
       (Z.of_nat (length (Fixture.wrap Fixture.application))))
  = Done (Fixture.wrap Fixture.application,
          Z.of_nat (length (Fixture.wrap Fixture.application))).
Proof.
  assert (H1 : length (Fixture.apdu_header 3) = 7%nat) by run.
  assert (H2 : length Fixture.challenge = 32%nat) by run.
  assert (H3 : length Fixture.application = 32%nat) by run.
  assert (H4 : Z.of_nat (length (Fixture.wrap Fixture.application)) < 256)
    by run.
  split; [tauto |].
  destruct (request_fields_round_trip Fixture.decrypt 1
              (Fixture.apdu_header 3) Fixture.challenge
              Fixture.application (Fixture.wrap Fixture.application)
              [0; 0] H1 H2 H3 H4) as [_ [Hget _]].
  exact Hget.
Defined.

(** The key handle of a whole request, and of one cut short. *)
Lemma key_handle_cipher_needs_bytes_witness :
  (0 <= 48 /\
   72 + 48 <= Z.of_nat (length (payload Fixture.enforce_request)) /\
   Z.of_nat (length (payload Fixture.truncated_request)) < 72 + 48) /\
  authenticate_get_key_handle_cipher Fixture.enforce_request
    (mkParams Fixture.challenge Fixture.application 48)
  = Done (firstn (Z.to_nat 48)
            (skipn 72 (payload Fixture.enforce_request)), 48) /\
  authenticate_get_key_handle_cipher Fixture.truncated_request
    (mkParams Fixture.challenge Fixture.application 48)
  = Fault Indeterminate.
Proof.
  assert (H0 : 0 <= key_handle_size
                      (mkParams Fixture.challenge Fixture.application 48))
    by run.
  assert (H1 : 72 + 48
               <= Z.of_nat (length (payload Fixture.enforce_request)))
    by run.
  assert (H2 : Z.of_nat (length (payload Fixture.truncated_request))
               < 72 + 48) by run.
  split; [cbn [key_handle_size] in H0; tauto |]. split.
  - exact (proj1 (key_handle_cipher_needs_bytes Fixture.enforce_request
                    (mkParams Fixture.challenge Fixture.application 48)
                    H0) H1).
  - apply (proj2 (key_handle_cipher_needs_bytes Fixture.truncated_request
                    (mkParams Fixture.challenge Fixture.application 48)
                    H0)); [run | exact H2].
Defined.

(** The key handle of a whole request is decrypted whole. *)
Lemma key_handle_cipher_size_agrees_witness :
  (0 <= 48 /\
   authenticate_get_key_handle_cipher Fixture.enforce_request
     (mkParams Fixture.challenge Fixture.application 48)
   = Done (Fixture.wrap Fixture.application, 48)) /\
  authenticate_decrypt_key_handle_cipher Fixture.decrypt
    (Fixture.wrap Fixture.application) 48
  = Done (Fixture.decrypt (Fixture.wrap Fixture.application),
          Z.of_nat
            (length (Fixture.decrypt (Fixture.wrap Fixture.application)))).
Proof.
  assert (H0 : 0 <= key_handle_size
                      (mkParams Fixture.challenge Fixture.application 48))
    by run.
  assert (H1 : authenticate_get_key_handle_cipher Fixture.enforce_request
                 (mkParams Fixture.challenge Fixture.application 48)
               = Done (Fixture.wrap Fixture.application, 48)) by run.
  split; [cbn [key_handle_size] in H0; tauto |].
  destruct (key_handle_cipher_size_agrees Fixture.decrypt
              Fixture.enforce_request
              (mkParams Fixture.challenge Fixture.application 48)
              (Fixture.wrap Fixture.application) 48 H0 H1)
    as [_ [_ Hdec]].
  exact Hdec.
Defined.

(** A request cut short inside its key handle. *)
Lemma truncated_request_indeterminate_witness :
  (0 <= request_key_handle_size Fixture.truncated_request /\
   Z.of_nat (length (payload Fixture.truncated_request))
   < 72 + request_key_handle_size Fixture.truncated_request) /\
  Fixture.check Fixture.truncated_request = Fault Indeterminate /\
  Fixture.enforce Fixture.truncated_request = Fault Indeterminate.
Proof.
  assert (H1 : 0 <= request_key_handle_size Fixture.truncated_request)
    by run.
  assert (H2 : Z.of_nat (length (payload Fixture.truncated_request))
               < 72 + request_key_handle_size Fixture.truncated_request)
    by run.
  split; [tauto |].
  exact (truncated_request_indeterminate Fixture.key Fixture.decrypt
           Fixture.hash Fixture.bytes_to_key Fixture.sign
           Fixture.truncated_request H1 H2).
Defined.



(** A plain key handle of 16 private key bytes and an application
    parameter. *)
Lemma key_handle_reads_partition_witness :
  key_handle_fits (Fixture.private_key ++ Fixture.application) /\
  exists privkey bound,
    read_bytes (Fixture.private_key ++ Fixture.application) 0
      (size_sub
         (Z.of_nat (length (Fixture.private_key ++ Fixture.application)))
         U2F_APP_PARAM_SIZE)
    = Done privkey /\
    privkey ++ bound = Fixture.private_key ++ Fixture.application.
Proof.
  assert (H : key_handle_fits (Fixture.private_key ++ Fixture.application))
    by run.
  split; [exact H |].
  destruct (key_handle_reads_partition
              (Fixture.private_key ++ Fixture.application) H)
    as [privkey [bound [Hpriv [_ [Hall _]]]]].
  exists privkey, bound. split; [exact Hpriv | exact Hall].
Defined.

(** The response to an enforce request comes from the enforce path. *)
Lemma handler_response_origin_witness :
  nth_error (payload Fixture.enforce_request) 2 = Some U2F_AUTH_ENFORCE /\
  (Fixture.handler Fixture.enforce_request
   = Done (Some Fixture.enforce_response)
   <-> (U2F_AUTH_ENFORCE = U2F_AUTH_CHECK /\
        Fixture.check Fixture.enforce_request
        = Done (Some Fixture.enforce_response)) \/
       (U2F_AUTH_ENFORCE = U2F_AUTH_ENFORCE /\
        Fixture.enforce Fixture.enforce_request
        = Done (Some Fixture.enforce_response))).
Proof.
  assert (H : nth_error (payload Fixture.enforce_request) 2
              = Some U2F_AUTH_ENFORCE) by run.
  split; [exact H |].
  exact (proj2 (handler_response_origin Fixture.key Fixture.decrypt
                  Fixture.hash Fixture.bytes_to_key Fixture.sign
                  Fixture.enforce_request U2F_AUTH_ENFORCE H)
           Fixture.enforce_response).
Defined.

Lemma byte_sign_is_bytes (k : Fixture.key) (digest : list Z) :
  Forall is_byte (Fixture.byte_sign k digest).
Proof.
  unfold Fixture.byte_sign. apply Forall_map, Forall_forall.
  intros b _. apply Z.mod_pos_bound. lia.
Qed.

(** The response to an enforce request, signed with bytes. *)
Lemma responses_are_bytes_witness :
  ((forall k digest, Forall is_byte (Fixture.byte_sign k digest)) /\
   raw_authenticate_handler Fixture.key Fixture.decrypt Fixture.hash
     Fixture.bytes_to_key Fixture.byte_sign Fixture.enforce_request
   = Done (Some Fixture.enforce_response)) /\
  Forall is_byte (payload Fixture.enforce_response).
Proof.
  assert (H : raw_authenticate_handler Fixture.key Fixture.decrypt
                Fixture.hash Fixture.bytes_to_key Fixture.byte_sign
                Fixture.enforce_request
              = Done (Some Fixture.enforce_response)) by run.
  split; [split; [exact byte_sign_is_bytes | exact H] |].
  exact (responses_are_bytes Fixture.key Fixture.decrypt Fixture.hash
           Fixture.bytes_to_key Fixture.byte_sign
           Fixture.enforce_request Fixture.enforce_response
           byte_sign_is_bytes H).
Defined.

(** The signature inside a first enforce response. *)
Lemma enforce_signature_recoverable_witness :
  Fixture.enforce Fixture.enforce_request
  = Done (Some Fixture.enforce_response) /\
  payload Fixture.enforce_response
  = [1; 1; 0; 0; 0]
    ++ firstn (length (payload Fixture.enforce_response) - 7)
         (skipn 5 (payload Fixture.enforce_response))
    ++ [0x90; 0x00].
Proof.
  assert (H : Fixture.enforce Fixture.enforce_request
              = Done (Some Fixture.enforce_response)) by run.
  split; [exact H |].
  exact (proj1 (enforce_signature_recoverable Fixture.key Fixture.decrypt
                  Fixture.hash Fixture.bytes_to_key Fixture.sign
                  Fixture.enforce_request Fixture.enforce_response H)).
Defined.

(** A check-only request that is answered, run through the enforce
    path. *)
Lemma check_answer_implies_enforce_answer_witness :
  Fixture.check Fixture.check_request
  = Done (Some Fixture.check_response) /\
  exists signed_response,
    Fixture.enforce Fixture.check_request = Done (Some signed_response) /\
    cid signed_response = cid Fixture.check_response /\
    status_word signed_response = sw_bytes SW_NO_ERROR.
Proof.
  assert (H : Fixture.check Fixture.check_request
              = Done (Some Fixture.check_response)) by run.
  split; [exact H |].
  exact (check_answer_implies_enforce_answer Fixture.key Fixture.decrypt
           Fixture.hash Fixture.bytes_to_key Fixture.sign
           Fixture.check_request Fixture.check_response H).
Defined.
